(** * Phone Unlock Service: request intake and deferred notification

    A shallow embedding of [schemas.py] (the [UnlockRequest] model) and of
    [main.py] (mail helpers, [submit_unlock_request], [list_unlock_requests]),
    with the properties of the intake pipeline proved over it.

    Validation is that of pydantic 2 on a parsed JSON body: a string field
    takes a JSON string only, [Optional] takes [null] as well, a default
    stands in for an absent key, and unknown keys are ignored.

    Conventions.
    - A Python [str] is a list of Unicode code points, so that [len] is
      [length]. Literals of the source are written [lit "..."]; the two
      characters of the templates outside ASCII are given by code point.
    - Dictionaries (the JSON body, [os.environ], stored documents) are
      [gmap]s keyed by field name.
    - Code that prints, talks to the SMTP server or raises lives in the
      monad [Py], a state monad over [World] with exceptions. *)

From stdpp Require Import base strings gmap list pretty.
From Stdlib Require Import ZArith.

#[local] Open Scope N_scope.

(** ** Python strings and the builtins the service uses *)

Abbreviation str := (list N).

Definition lit (s : string) : str :=
  (λ a, Ascii.N_of_ascii a) <$> String.list_ascii_of_string s.

(** Truthiness of [Optional[str]]: [None] and [''] are falsy. *)
Definition truthy (o : option str) : bool :=
  match o with
  | Some (_ :: _) => true
  | _ => false
  end.

(** [a or b] for [a : Optional[str]], [b : str]. *)
Definition py_or (a : option str) (b : str) : str :=
  match a with
  | Some (c :: s) => c :: s
  | _ => b
  end.

(** The characters [int] skips at both ends: the white space of ASCII, and
    the white space outside ASCII, which it reads as a blank. *)
Definition is_space (c : N) : bool :=
  existsb (N.eqb c)
    [9; 10; 11; 12; 13; 32; 133; 160; 5760; 8192; 8193; 8194; 8195; 8196;
     8197; 8198; 8199; 8200; 8201; 8202; 8232; 8233; 8239; 8287; 12288].

Fixpoint lstrip (s : str) : str :=
  match s with
  | c :: s' => if is_space c then lstrip s' else s
  | [] => []
  end.

Definition strip (s : str) : str := reverse (lstrip (reverse (lstrip s))).

(** The zero of every run of ten decimal digits (Unicode 14, the table of
    CPython 3.11): the digits of ASCII first, then those of other scripts,
    which [int] reads as well. *)
Definition decimal_zeros : list N :=
  [48; 1632; 1776; 1984; 2406; 2534; 2662; 2790; 2918; 3046; 3174; 3302;
   3430; 3558; 3664; 3792; 3872; 4160; 4240; 6112; 6160; 6470; 6608; 6784;
   6800; 6992; 7088; 7232; 7248; 42528; 43216; 43264; 43472; 43504; 43600;
   44016; 65296; 66720; 68912; 69734; 69872; 69942; 70096; 70384; 70736;
   70864; 71248; 71360; 71472; 71904; 72016; 72784; 73040; 73120; 92768;
   92864; 93008; 120782; 120792; 120802; 120812; 120822; 123200; 123632;
   125264; 130032].

Definition digit_val (c : N) : option Z :=
  (λ zero, Z.of_N (c - zero))
    <$> find (λ zero, (zero <=? c) && (c <=? zero + 9)) decimal_zeros.

(** Decimal digits, single underscores allowed between two digits. *)
Fixpoint parse_digits (acc : Z) (after_digit : bool) (s : str) : option Z :=
  match s with
  | [] => if after_digit then Some acc else None
  | c :: s' =>
      match digit_val c with
      | Some d => parse_digits (10 * acc + d) true s'
      | None =>
          if (c =? 95) && after_digit then parse_digits acc false s' else None
      end
  end.

(** How many digits a string has; [int] refuses more than 4300 of them
    ([sys.get_int_max_str_digits()], as CPython 3.11 starts with). *)
Definition count_digits (s : str) : nat :=
  length (filter (λ c, is_Some (digit_val c)) s).

(** [int(s)] in base ten; [None] stands for [ValueError]. *)
Definition py_int (s : str) : option Z :=
  if (4300 <? count_digits s)%nat then None
  else
    match strip s with
    | 45 :: r => Z.opp <$> parse_digits 0 false r
    | 43 :: r => parse_digits 0 false r
    | r => parse_digits 0 false r
    end.

(** ** JSON bodies *)

#[warnings="-register-all"]
Inductive json :=
| JNull
| JBool (b : bool)
| JNum (repr : string)
| JStr (s : str)
| JArr (l : list json)
| JObj (m : gmap string json).

(** ** schemas.py *)

Module Schema.

(** [Literal['new', 'in_progress', 'completed', 'failed']] *)
Inductive Status := new | in_progress | completed | failed.

Definition status_str (s : Status) : str :=
  match s with
  | new => lit "new"
  | in_progress => lit "in_progress"
  | completed => lit "completed"
  | failed => lit "failed"
  end.

Definition all_status : list Status := [new; in_progress; completed; failed].

(** class UnlockRequest(BaseModel) *)
Record UnlockRequest := {
  brand : str;
  model : str;
  issue : str;
  imei : str;
  region : option str;
  name : str;
  email : str;
  notes : option str;
  status : Status
}.

(** The error kinds of pydantic that the model can report. *)
Inductive error_type :=
| missing
| string_type
| string_too_short
| string_too_long
| value_error
| literal_error
| model_attributes_type.

(** One entry of a [ValidationError]: the field and what is wrong with it. *)
Record error_detail := { loc : string; type : error_type }.

(** [EmailStr] hands the address to the email-validator package, which
    returns the normalised address or refuses it. The package is not part of
    the service; its check is an interface here. *)
Class EmailValidator := validate_email : str → option str.

(** [str], with the [min_length] and [max_length] constraints of [Field]. *)
Definition too_short (min_length : option nat) (s : str) : bool :=
  match min_length with
  | Some n => (length s <? n)%nat
  | None => false
  end.

Definition too_long (max_length : option nat) (s : str) : bool :=
  match max_length with
  | Some n => (n <? length s)%nat
  | None => false
  end.

Definition str_type (min_length max_length : option nat) (v : json)
  : error_type + str :=
  match v with
  | JStr s =>
      if too_short min_length s then inl string_too_short
      else if too_long max_length s then inl string_too_long
      else inr s
  | _ => inl string_type
  end.

(** [Optional[str]] *)
Definition optional_str (v : json) : error_type + option str :=
  match v with
  | JNull => inr None
  | JStr s => inr (Some s)
  | _ => inl string_type
  end.

(** [EmailStr] *)
Definition email_str {ev : EmailValidator} (v : json) : error_type + str :=
  match v with
  | JStr s =>
      match validate_email s with
      | Some e => inr e
      | None => inl value_error
      end
  | _ => inl string_type
  end.

(** [Literal[...]]: the value must equal one of the four strings. *)
Definition literal_status (v : json) : error_type + Status :=
  match v with
  | JStr s =>
      match filter (λ st, status_str st = s) all_status with
      | st :: _ => inr st
      | [] => inl literal_error
      end
  | _ => inl literal_error
  end.

(** [Field(default, ...)]: [default = None] is the [...] of a required field;
    a default is used as it is when the key is absent. *)
Definition Field {A} (default : option A) (check : json → error_type + A)
    (raw : gmap string json) (key : string) : error_detail + A :=
  match raw !! key with
  | None =>
      match default with
      | Some d => inr d
      | None => inl {| loc := key; type := missing |}
      end
  | Some v =>
      match check v with
      | inl e => inl {| loc := key; type := e |}
      | inr a => inr a
      end
  end.

Definition errors_of {A} (r : error_detail + A) : list error_detail :=
  match r with
  | inl e => [e]
  | inr _ => []
  end.

(** The errors of the nine fields, in the order of the class body. *)
Definition field_errors {ev : EmailValidator} (d : gmap string json)
  : list error_detail :=
  errors_of (Field None (str_type None None) d "brand")
  ++ errors_of (Field None (str_type None None) d "model")
  ++ errors_of (Field None (str_type None None) d "issue")
  ++ errors_of (Field None (str_type (Some 8%nat) (Some 20%nat)) d "imei")
  ++ errors_of (Field (Some None) optional_str d "region")
  ++ errors_of (Field None (str_type None None) d "name")
  ++ errors_of (Field None email_str d "email")
  ++ errors_of (Field (Some None) optional_str d "notes")
  ++ errors_of (Field (Some new) literal_status d "status").

(** [UnlockRequest.model_validate]: every field is checked and the errors of
    all of them are reported together; keys that are no field are ignored. *)
Definition validate {ev : EmailValidator} (raw : json)
  : list error_detail + UnlockRequest :=
  match raw with
  | JObj d =>
      match Field None (str_type None None) d "brand",
            Field None (str_type None None) d "model",
            Field None (str_type None None) d "issue",
            Field None (str_type (Some 8%nat) (Some 20%nat)) d "imei",
            Field (Some None) optional_str d "region",
            Field None (str_type None None) d "name",
            Field None email_str d "email",
            Field (Some None) optional_str d "notes",
            Field (Some new) literal_status d "status" with
      | inr b, inr m, inr i, inr im, inr r, inr n, inr e, inr nt, inr s =>
          inr {| brand := b; model := m; issue := i; imei := im; region := r;
                 name := n; email := e; notes := nt; status := s |}
      | _, _, _, _, _, _, _, _, _ => inl (field_errors d)
      end
  | _ => inl [{| loc := ""; type := model_attributes_type |}]
  end.

(** The value a body gives to a key; a body that is no object gives none. *)
Definition lookup_field (raw : json) (key : string) : option json :=
  match raw with
  | JObj d => d !! key
  | _ => None
  end.

(** The nine field checks all pass, and give the fields of [req]. *)
Definition accepts {ev : EmailValidator} (d : gmap string json)
    (req : UnlockRequest) : Prop :=
  Field None (str_type None None) d "brand" = inr (brand req)
  ∧ Field None (str_type None None) d "model" = inr (model req)
  ∧ Field None (str_type None None) d "issue" = inr (issue req)
  ∧ Field None (str_type (Some 8%nat) (Some 20%nat)) d "imei" = inr (imei req)
  ∧ Field (Some None) optional_str d "region" = inr (region req)
  ∧ Field None (str_type None None) d "name" = inr (name req)
  ∧ Field None email_str d "email" = inr (email req)
  ∧ Field (Some None) optional_str d "notes" = inr (notes req)
  ∧ Field (Some new) literal_status d "status" = inr (status req).

(** The fields a payload has to give. *)
Definition required_fields : list string :=
  ["brand"; "model"; "issue"; "imei"; "name"; "email"].

Definition set_imei (s : str) (req : UnlockRequest) : UnlockRequest :=
  {| brand := brand req; model := model req; issue := issue req; imei := s;
     region := region req; name := name req; email := email req;
     notes := notes req; status := status req |}.

Definition set_region (r : option str) (req : UnlockRequest) : UnlockRequest :=
  {| brand := brand req; model := model req; issue := issue req;
     imei := imei req; region := r; name := name req; email := email req;
     notes := notes req; status := status req |}.

Definition set_notes (n : option str) (req : UnlockRequest) : UnlockRequest :=
  {| brand := brand req; model := model req; issue := issue req;
     imei := imei req; region := region req; name := name req;
     email := email req; notes := n; status := status req |}.

End Schema.

(** ** Exceptions, the environment and the monad of effects *)

(** A step of the SMTP dialogue of [smtplib]. *)
Inductive smtp_op :=
| Connect (host : str) (port : Z)
| StartTLS
| Login (user password : str)
| SendMessage (subject from to : str) (text : option str) (html : str)
| Quit.

(** A call into the [email] package while a message is built. *)
Inductive email_step :=
| SetHeader (name : string) (value : str)
| SetContent (text : str)
| AddAlternative (html : str).

(** [Raised] is any other exception, by the name of its class. *)
Inductive exn :=
| ValueError (what : str)
| SMTPException (op : smtp_op)
| StoreError (what : str)
| Raised (class : string) (what : str).

(** [str(e)] *)
Definition exn_str (e : exn) : str :=
  match e with
  | ValueError what => what
  | SMTPException _ => lit "SMTP error"
  | StoreError what => what
  | Raised _ what => what
  end.

(** What the process is started with and cannot change: [os.environ], how
    the mail server answers each step ([false]: the step raises), and the
    exception, if any, with which the [email] package answers a step of
    building a message: a header it cannot parse, a body it cannot
    encode. *)
Record Env := {
  environ : gmap string str;
  smtp_ok : smtp_op → bool;
  email_error : email_step → option exn
}.

(** What the process does to the outside: lines printed, SMTP steps tried. *)
Record World := {
  stdout : list str;
  network : list smtp_op
}.

Definition Py (A : Type) : Type := Env → World → World * (exn + A).

#[export] Instance Py_ret : MRet Py := λ A a _ w, (w, inr a).

#[export] Instance Py_bind : MBind Py := λ A B f m env w,
  match m env w with
  | (w', inl e) => (w', inl e)
  | (w', inr a) => f a env w'
  end.

Definition raise {A} (e : exn) : Py A := λ _ w, (w, inl e).

(** [os.getenv(key)] and [os.getenv(key, default)] *)
Definition getenv (key : string) : Py (option str) :=
  λ env w, (w, inr (environ env !! key)).

Definition getenv_default (key : string) (fallback : str) : Py str :=
  λ env w, (w, inr (default fallback (environ env !! key))).

(** [print(line)] *)
Definition print (line : str) : Py unit :=
  λ _ w, ({| stdout := stdout w ++ [line]; network := network w |}, inr tt).

(** One step of the SMTP dialogue: it is put on the wire, and raises when
    the server refuses it. *)
Definition smtp (op : smtp_op) : Py unit :=
  λ env w,
    let w' := {| stdout := stdout w; network := network w ++ [op] |} in
    (w', if smtp_ok env op then inr tt else inl (SMTPException op)).

(** [SMTP.__exit__]: leaving the block sends QUIT, also when the body
    raised, and an error of QUIT is the one that is seen. *)
Definition finally_quit {A} (body : Py A) : Py A :=
  λ env w,
    match body env w with
    | (w1, r) =>
        match smtp Quit env w1 with
        | (w2, inl e) => (w2, inl e)
        | (w2, inr _) => (w2, r)
        end
    end.

(** [with smtplib.SMTP(host, port) as server: body]; the constructor
    connects, and the block is entered only when it has. *)
Definition with_SMTP {A} (host : str) (port : Z) (body : Py A) : Py A :=
  smtp (Connect host port) ≫= λ _, finally_quit body.

(** ** email.message *)

Definition is_linebreak (c : N) : bool :=
  existsb (N.eqb c) [10; 11; 12; 13; 28; 29; 30; 133; 8232; 8233].

(** [len(value.splitlines())]; a CR LF pair ends one line. *)
Fixpoint count_lines (in_line : bool) (s : str) : nat :=
  match s with
  | [] => if in_line then 1 else 0
  | c :: s' =>
      if is_linebreak c then
        match c, s' with
        | 13, 10 :: s'' => S (count_lines false s'')
        | _, _ => S (count_lines false s')
        end
      else count_lines true s'
  end.

(** A step of building a message, which the [email] package takes or
    answers with an exception. *)
Definition email_call (step : email_step) : Py unit :=
  λ env w,
    (w, match email_error env step with
        | Some e => inl e
        | None => inr tt
        end).

(** [msg[name] = value] under the default policy: a value of more than one
    line is refused; any other is handed to the parser of the header. *)
Definition set_header (name : string) (value : str) : Py str :=
  if (1 <? count_lines false value)%nat
  then raise (ValueError (lit "Header values may not contain linefeed or carriage return characters"))
  else email_call (SetHeader name value) ≫= λ _, mret value.

(** [msg.set_content(text)] *)
Definition set_content (text : str) : Py unit :=
  email_call (SetContent text).

(** [msg.add_alternative(html, subtype="html")] *)
Definition add_alternative (html : str) : Py unit :=
  email_call (AddAlternative html).

(** ** database.py

    [main.py] imports [create_document] and [get_documents] from
    [database.py]. The definitions below stand for that module. *)

Module Database.
Import Schema.

(** What a stored document holds under a key. *)
Inductive value :=
| VNone
| VStr (s : str)
| VObjectId (oid : N).

#[export] Instance value_eq_dec : EqDecision value.
Proof. solve_decision. Defined.

(** Modelled from the spec: the rendering of a store-native identifier,
    which database.py and its driver define. The spec asks for an
    identifier that is unique, stable and stringifiable; a counter printed
    in decimal is one. *)
Definition str_oid (oid : N) : str := lit (pretty oid).

(** [str(v)] *)
Definition py_str (v : value) : str :=
  match v with
  | VNone => lit "None"
  | VStr s => s
  | VObjectId oid => str_oid oid
  end.

(** Modelled from the spec: the document database.py stores for a request,
    "the validated UnlockRequest", one key per field. *)
Definition model_dump (req : UnlockRequest) : gmap string value :=
  <["brand" := VStr (brand req)]> (
  <["model" := VStr (model req)]> (
  <["issue" := VStr (issue req)]> (
  <["imei" := VStr (imei req)]> (
  <["region" := from_option VStr VNone (region req)]> (
  <["name" := VStr (name req)]> (
  <["email" := VStr (email req)]> (
  <["notes" := from_option VStr VNone (notes req)]> (
  <["status" := VStr (status_str (status req))]> ∅)))))))).

(** Modelled from the spec: the state behind database.py, "an opaque
    document store with insert and list-with-limit operations": whether the
    store can be reached, the next identifier it hands out, and each
    collection in insertion order. *)
Record Store := {
  available : bool;
  next_oid : N;
  collections : gmap string (list (gmap string value))
}.

(** Modelled from the spec: the two choices the spec leaves to database.py.
    A limit that is not positive is "implementation-defined" but "must not
    be treated as unlimited silently - reject or clamp to a sane floor";
    documents come in "most-recent-insertion-order or natural store
    order". *)
Inductive limit_policy := RejectLimit | ClampLimit (floor : positive).

(** Modelled from the spec: the order of a listing, which database.py
    fixes: "most-recent-insertion-order or natural store order". *)
Inductive list_order := NaturalOrder | MostRecentFirst.

(** Modelled from the spec: the two choices together, as database.py makes
    them once and for all. *)
Class StoreConfig := {
  nonpositive_limit : limit_policy;
  order : list_order
}.

(** An operation of the store: it may change the store, and returns or
    raises. *)
Definition Db (A : Type) : Type := Store → Store * (exn + A).

(** The documents of a collection; a collection never written to is empty. *)
Definition collection (collection_name : string) (st : Store)
  : list (gmap string value) :=
  default [] (collections st !! collection_name).

(** Modelled from the spec: what holds of every store database.py can
    build, the identifier being "globally unique": each stored document
    carries an identifier the store has already handed out. *)
Definition store_wf (st : Store) : Prop :=
  ∀ c d, d ∈ collection c st →
         ∃ oid, d !! "_id" = Some (VObjectId oid) ∧ oid < next_oid st.

(** Modelled from the spec: [create_document] of database.py,
    "insert(collectionName, document) -> id": the document is stored with a
    fresh identifier, which is returned as a string; "if the store is
    unreachable or misconfigured, insert/list fail with a StoreError". *)
Definition create_document (collection_name : string) (data : UnlockRequest)
  : Db str :=
  λ st,
    if available st then
      let oid := next_oid st in
      let d := <["_id" := VObjectId oid]> (model_dump data) in
      ({| available := true;
          next_oid := oid + 1;
          collections :=
            <[collection_name := collection collection_name st ++ [d]]>
              (collections st) |},
       inr (str_oid oid))
    else (st, inl (StoreError (lit "Database not available"))).

(** Modelled from the spec: [get_documents] of database.py,
    "list(collectionName, limit) -> sequence of documents", which "must cap
    the number of returned documents at limit" and rejects or clamps a limit
    that is not positive. *)
Definition get_documents {cfg : StoreConfig} (collection_name : string)
    (limit : Z) : Db (list (gmap string value)) :=
  λ st,
    if available st then
      let docs :=
        match order with
        | NaturalOrder => collection collection_name st
        | MostRecentFirst => reverse (collection collection_name st)
        end in
      if (0 <? limit)%Z then (st, inr (take (Z.to_nat limit) docs))
      else
        match nonpositive_limit with
        | RejectLimit => (st, inl (StoreError (lit "limit must be positive")))
        | ClampLimit floor => (st, inr (take (Pos.to_nat floor) docs))
        end
    else (st, inl (StoreError (lit "Database not available"))).

End Database.

(** ** main.py: the mail helpers *)

Module Main.
Import Schema Database.

Definition nl : str := [10].

(** [int(s)] as a step that can raise. *)
Definition int (s : str) : Py Z :=
  match py_int s with
  | Some z => mret z
  | None => raise (ValueError (lit "invalid literal for int() with base 10"))
  end.

Definition _send_email_smtp (subject to_email html_body : str)
    (text_body : option str) : Py unit :=
  host ← getenv "SMTP_HOST";
  port ← getenv_default "SMTP_PORT" (lit "587") ≫= int;
  user ← getenv "SMTP_USER";
  password ← getenv "SMTP_PASS";
  from_email ← getenv_default "FROM_EMAIL"
                 (py_or user (lit "no-reply@phonelockremover.com"));
  if negb (truthy host) || negb (truthy user) || negb (truthy password) then
    (* Graceful no-op if SMTP not configured *)
    print (lit "[email] SMTP not configured. Skipping send.")
  else
    msg_subject ← set_header "Subject" subject;
    msg_from ← set_header "From" from_email;
    msg_to ← set_header "To" to_email;
    let content := if truthy text_body then text_body else None in
    _ ← from_option set_content (mret tt) content;
    _ ← add_alternative html_body;
    with_SMTP (default [] host) port (
      _ ← smtp StartTLS;
      _ ← smtp (Login (default [] user) (default [] password));
      _ ← smtp (SendMessage msg_subject msg_from msg_to content html_body);
      print (lit "[email] Sent to " ++ to_email)).

(** [req.region or '-'] and [req.notes or '-'] *)
Definition or_dash (o : option str) : str := py_or o (lit "-").

Definition send_admin_notification (req : UnlockRequest) (doc_id : str)
  : Py unit :=
  to_email ← getenv_default "ADMIN_EMAIL" (lit "process@phonelockremover.com");
  let subject :=
    lit "New Unlock Request " ++ [8226] ++ lit " " ++ brand req ++ lit " "
    ++ model req ++ lit " " ++ [8226] ++ lit " " ++ doc_id in
  let html := concat [
    nl;
    lit "    <h2>New Unlock Request</h2>"; nl;
    lit "    <p><strong>Reference ID:</strong> "; doc_id; lit "</p>"; nl;
    lit "    <ul>"; nl;
    lit "      <li><strong>Brand:</strong> "; brand req; lit "</li>"; nl;
    lit "      <li><strong>Model:</strong> "; model req; lit "</li>"; nl;
    lit "      <li><strong>Issue:</strong> "; issue req; lit "</li>"; nl;
    lit "      <li><strong>IMEI/Serial:</strong> "; imei req; lit "</li>"; nl;
    lit "      <li><strong>Region/Carrier:</strong> "; or_dash (region req); nl;
    lit "      <li><strong>Name:</strong> "; name req; lit "</li>"; nl;
    lit "      <li><strong>Email:</strong> "; email req; lit "</li>"; nl;
    lit "      <li><strong>Notes:</strong> "; or_dash (notes req); nl;
    lit "    </ul>"; nl;
    lit "    <p>Status: "; status_str (status req); lit "</p>"; nl;
    lit "    " ] in
  let text := concat [
    lit "New Unlock Request"; nl;
    lit "ID: "; doc_id; nl;
    lit "Brand: "; brand req; nl;
    lit "Model: "; model req; nl;
    lit "Issue: "; issue req; nl;
    lit "IMEI/Serial: "; imei req; nl;
    lit "Region: "; or_dash (region req); nl;
    lit "Name: "; name req; nl;
    lit "Email: "; email req; nl;
    lit "Notes: "; or_dash (notes req); nl;
    lit "Status: "; status_str (status req); nl ] in
  _send_email_smtp subject to_email html (Some text).

Definition send_customer_autoresponse (req : UnlockRequest) (doc_id : str)
  : Py unit :=
  let subject := lit "We received your unlock request" in
  let html := concat [
    nl;
    lit "    <h2>Thanks, "; name req; lit "!</h2>"; nl;
    lit "    <p>We've received your request and will get back to you shortly.</p>"; nl;
    lit "    <p><strong>Reference ID:</strong> "; doc_id; lit "</p>"; nl;
    lit "    <p>Summary:</p>"; nl;
    lit "    <ul>"; nl;
    lit "      <li><strong>Device:</strong> "; brand req; lit " "; model req; lit "</li>"; nl;
    lit "      <li><strong>Issue:</strong> "; issue req; lit "</li>"; nl;
    lit "      <li><strong>IMEI/Serial:</strong> "; imei req; lit "</li>"; nl;
    lit "      <li><strong>Region/Carrier:</strong> "; or_dash (region req); nl;
    lit "    </ul>"; nl;
    lit "    <p>If anything is incorrect, reply to this email with corrections.</p>"; nl;
    lit "    <p>"; [8212]; lit " PhoneLockRemover</p>"; nl;
    lit "    " ] in
  let text := concat [
    lit "Thanks, "; name req; lit "! We received your unlock request."; nl;
    lit "Reference ID: "; doc_id; nl;
    lit "Device: "; brand req; lit " "; model req; nl;
    lit "Issue: "; issue req; nl;
    lit "IMEI/Serial: "; imei req; nl;
    lit "Region/Carrier: "; or_dash (region req); nl;
    lit "We'll contact you at this email once we review."; nl ] in
  _send_email_smtp subject (email req) html (Some text).

(** The mail server is configured: host, user and password are all set and
    not empty. *)
Definition smtp_configured (env : Env) : bool :=
  truthy (environ env !! "SMTP_HOST")
  && truthy (environ env !! "SMTP_USER")
  && truthy (environ env !! "SMTP_PASS").

(** The message, if it is one, goes to [to_email]. *)
Definition sent_to (to_email : str) (op : smtp_op) : bool :=
  match op with
  | SendMessage _ _ to _ _ => bool_decide (to = to_email)
  | _ => false
  end.

(** [w'] is [w] with more printed and more sent: nothing is taken back. *)
Definition extends (w w' : World) : Prop :=
  stdout w `prefix_of` stdout w' ∧ network w `prefix_of` network w'.

(** A computation that only adds to the world. *)
Definition grows {A} (m : Py A) : Prop := ∀ env w, extends w (m env w).1.

(** ** main.py: the two endpoints *)

(** class UnlockResponse(BaseModel) *)
Record UnlockResponse := { id : str; message : str }.

Record HTTPException := { status_code : Z; detail : str }.

(** [BackgroundTasks]: the calls added with [add_task], in the order they
    were added. *)
Abbreviation BackgroundTasks := (list (Py unit)).

Definition add_task (task : Py unit) (background_tasks : BackgroundTasks)
  : BackgroundTasks :=
  background_tasks ++ [task].

Definition submit_unlock_request (payload : UnlockRequest)
    (background_tasks : BackgroundTasks) (st : Store)
  : Store * (HTTPException + UnlockResponse) * BackgroundTasks :=
  match create_document "unlockrequest" payload st with
  | (st', inr doc_id) =>
      (* Fire-and-forget email notifications *)
      let background_tasks :=
        add_task (send_admin_notification payload doc_id) background_tasks in
      let background_tasks :=
        add_task (send_customer_autoresponse payload doc_id) background_tasks in
      (st',
       inr {| id := doc_id;
              message := lit "Request received. We'll email you with next steps." |},
       background_tasks)
  | (st', inl e) =>
      (st', inl {| status_code := 500; detail := exn_str e |}, background_tasks)
  end.

(** [if "_id" in d: d["_id"] = str(d["_id"])] *)
Definition stringify_id (d : gmap string value) : gmap string value :=
  match d !! "_id" with
  | Some v => <["_id" := VStr (py_str v)]> d
  | None => d
  end.

Definition list_unlock_requests {cfg : StoreConfig} (limit : Z) (st : Store)
  : Store * (HTTPException + list (gmap string value)) :=
  match get_documents "unlockrequest" limit st with
  | (st', inr docs) => (st', inr (stringify_id <$> docs))
  | (st', inl e) => (st', inl {| status_code := 500; detail := exn_str e |})
  end.

End Main.

(** ** The framework around the handlers *)

Module App.
Import Schema Database Main.

Inductive Response (A : Type) :=
| OK (body : A)
| UnprocessableEntity (errors : list error_detail)
| Failed (e : HTTPException).
Arguments OK {A} body.
Arguments UnprocessableEntity {A} errors.
Arguments Failed {A} e.

(** POST /api/unlock: the body is validated against [UnlockRequest] before
    the handler is called, with a fresh [BackgroundTasks]; a response made
    from an exception carries no background tasks. *)
Definition post_api_unlock {ev : EmailValidator} (body : json) (st : Store)
  : Store * Response UnlockResponse * BackgroundTasks :=
  match validate body with
  | inl errors => (st, UnprocessableEntity errors, [])
  | inr payload =>
      match submit_unlock_request payload [] st with
      | (st', inr r, background_tasks) => (st', OK r, background_tasks)
      | (st', inl e, _) => (st', Failed e, [])
      end
  end.

(** GET /api/unlock?limit=N, where [limit: Optional[int] = 50]. *)
Definition get_api_unlock {cfg : StoreConfig} (limit : option Z) (st : Store)
  : Store * Response (list (gmap string value)) :=
  match list_unlock_requests (default 50%Z limit) st with
  | (st', inr docs) => (st', OK docs)
  | (st', inl e) => (st', Failed e)
  end.

(** [BackgroundTasks.__call__], run once the response is sent:
    [for task in self.tasks: await task()]. *)
Fixpoint run_background (tasks : BackgroundTasks) : Py unit :=
  match tasks with
  | [] => mret tt
  | task :: tasks' => task ≫= λ _, run_background tasks'
  end.

(** Two payloads fare alike: both are refused, with the same errors, or both
    are accepted, and the accepted requests are related by [R]. *)
Definition fare_alike (R : UnlockRequest → UnlockRequest → Prop)
    (r1 r0 : list error_detail + UnlockRequest) : Prop :=
  match r1, r0 with
  | inl e1, inl e0 => e1 = e0
  | inr req1, inr req0 => R req1 req0
  | _, _ => False
  end.

(** Both notifications are the same for two requests, whatever the
    reference. *)
Definition same_notifications (req1 req0 : UnlockRequest) : Prop :=
  ∀ doc_id,
    send_admin_notification req1 doc_id = send_admin_notification req0 doc_id
    ∧ send_customer_autoresponse req1 doc_id
      = send_customer_autoresponse req0 doc_id.

End App.

(** ** Concrete inputs *)

Module Examples.
Import Schema Database Main App.

(** An address check for the examples: an address has an [@]. *)
Definition has_at : EmailValidator :=
  λ s, if bool_decide (64 ∈ s) then Some s else None.

Definition jane : gmap string json :=
  <["brand" := JStr (lit "Apple")]> (
  <["model" := JStr (lit "iPhone 12")]> (
  <["issue" := JStr (lit "Carrier Lock")]> (
  <["imei" := JStr (lit "123456789012")]> (
  <["name" := JStr (lit "Jane Doe")]> (
  <["email" := JStr (lit "jane@example.com")]> ∅))))).

Definition jane_request : UnlockRequest :=
  {| brand := lit "Apple"; model := lit "iPhone 12";
     issue := lit "Carrier Lock"; imei := lit "123456789012"; region := None;
     name := lit "Jane Doe"; email := lit "jane@example.com"; notes := None;
     status := new |}.

(** The same payload with an empty brand, and the request it validates to. *)
Definition no_brand : gmap string json := <["brand" := JStr []]> jane.

Definition no_brand_request : UnlockRequest :=
  {| brand := []; model := lit "iPhone 12"; issue := lit "Carrier Lock";
     imei := lit "123456789012"; region := None; name := lit "Jane Doe";
     email := lit "jane@example.com"; notes := None; status := new |}.

(** A string of [n] characters. *)
Definition ones (n : nat) : str := replicate n 49.

Definition empty_store : Store :=
  {| available := true; next_oid := 0; collections := ∅ |}.

(** A store that took fifty requests, one after the other. *)
Definition fifty_requests : Store :=
  Nat.iter 50 (λ st, (create_document "unlockrequest" jane_request st).1)
    empty_store.

Definition rejecting : StoreConfig :=
  {| nonpositive_limit := RejectLimit; order := NaturalOrder |}.

Definition clamping : StoreConfig :=
  {| nonpositive_limit := ClampLimit 1; order := MostRecentFirst |}.

Definition silent : World := {| stdout := []; network := [] |}.

(** No mail server is configured, and [SMTP_PORT] is not a number. *)
Definition bad_port : Env :=
  {| environ := {["SMTP_PORT" := lit "abc"]};
     smtp_ok := λ _, true;
     email_error := λ _, None |}.

(** A configured mail server that refuses the message to the administrator
    and takes every other step. *)
Definition refusing_admin : Env :=
  {| environ :=
       <["SMTP_HOST" := lit "smtp.example.com"]> (
       <["SMTP_USER" := lit "mailer"]> (
       <["SMTP_PASS" := lit "secret"]> ∅));
     smtp_ok := λ op,
       match op with
       | SendMessage _ _ to _ _ =>
           negb (bool_decide (to = lit "process@phonelockremover.com"))
       | _ => true
       end;
     email_error := λ _, None |}.

(** The request of the example with a status given by the client. *)
Definition jane_completed : gmap string json :=
  <["status" := JStr (lit "completed")]> jane.

Definition jane_completed_request : UnlockRequest :=
  {| brand := lit "Apple"; model := lit "iPhone 12";
     issue := lit "Carrier Lock"; imei := lit "123456789012"; region := None;
     name := lit "Jane Doe"; email := lit "jane@example.com"; notes := None;
     status := completed |}.

End Examples.

(** ** main.py: the handlers over any store *)

(** [submit_unlock_request] and [list_unlock_requests] call the two functions
    they import from [database.py]. Here these are arguments, so that what
    the handlers do can be stated for whatever the store does. *)

Module Handlers.
Import Schema Database Main.

Definition submit_unlock_request_with
    (create_document : string → UnlockRequest → Db str)
    (payload : UnlockRequest) (background_tasks : BackgroundTasks)
    (st : Store)
  : Store * (HTTPException + UnlockResponse) * BackgroundTasks :=
  match create_document "unlockrequest" payload st with
  | (st', inr doc_id) =>
      let background_tasks :=
        add_task (send_admin_notification payload doc_id) background_tasks in
      let background_tasks :=
        add_task (send_customer_autoresponse payload doc_id) background_tasks in
      (st',
       inr {| id := doc_id;
              message := lit "Request received. We'll email you with next steps." |},
       background_tasks)
  | (st', inl e) =>
      (st', inl {| status_code := 500; detail := exn_str e |}, background_tasks)
  end.

Definition list_unlock_requests_with
    (get_documents : string → Z → Db (list (gmap string value)))
    (limit : Z) (st : Store)
  : Store * (HTTPException + list (gmap string value)) :=
  match get_documents "unlockrequest" limit st with
  | (st', inr docs) => (st', inr (stringify_id <$> docs))
  | (st', inl e) => (st', inl {| status_code := 500; detail := exn_str e |})
  end.

(** The port a send connects to: [int(os.getenv("SMTP_PORT", "587"))]. *)
Definition smtp_port (env : Env) : option Z :=
  py_int (default (lit "587") (environ env !! "SMTP_PORT")).

(** The sender of a message:
    [os.getenv("FROM_EMAIL", user or "no-reply@phonelockremover.com")]. *)
Definition sender (env : Env) : str :=
  default (py_or (environ env !! "SMTP_USER")
             (lit "no-reply@phonelockremover.com"))
    (environ env !! "FROM_EMAIL").

(** The recipient of the administrator's notification. *)
Definition admin_address (env : Env) : str :=
  default (lit "process@phonelockremover.com") (environ env !! "ADMIN_EMAIL").

(** The SMTP steps of one whole session that carries [msg]. *)
Definition session (env : Env) (port : Z) (msg : smtp_op) : list smtp_op :=
  [Connect (default [] (environ env !! "SMTP_HOST")) port;
   StartTLS;
   Login (default [] (environ env !! "SMTP_USER"))
     (default [] (environ env !! "SMTP_PASS"));
   msg;
   Quit].

(** A header value the message accepts. *)
Definition header_ok (value : str) : bool :=
  negb (1 <? count_lines false value)%nat.

Definition is_message (op : smtp_op) : bool :=
  match op with
  | SendMessage _ _ _ _ _ => true
  | _ => false
  end.

(** The exception, if any, with which [msg[name] = value] ends: a value of
    more than one line is refused before it is parsed. *)
Definition header_error (env : Env) (name : string) (value : str)
  : option exn :=
  if header_ok value then email_error env (SetHeader name value)
  else Some (ValueError (lit "Header values may not contain linefeed or carriage return characters")).

(** The first of two exceptions. *)
Definition or_else (first second : option exn) : option exn :=
  match first with
  | Some e => Some e
  | None => second
  end.

(** The exception, if any, with which building a message ends: subject,
    sender and recipient are set in this order, then the text body, when
    there is one, and the HTML body are attached. *)
Definition build_error (env : Env) (subject from to : str)
    (text_body : option str) (html : str) : option exn :=
  or_else (header_error env "Subject" subject) (
  or_else (header_error env "From" from) (
  or_else (header_error env "To" to) (
  or_else (match (if truthy text_body then text_body else None) with
           | Some text => email_error env (SetContent text)
           | None => None
           end)
          (email_error env (AddAlternative html))))).

(** The two bodies of the administrator's notification. *)
Definition admin_html (req : UnlockRequest) (doc_id : str) : str :=
  concat [
    nl;
    lit "    <h2>New Unlock Request</h2>"; nl;
    lit "    <p><strong>Reference ID:</strong> "; doc_id; lit "</p>"; nl;
    lit "    <ul>"; nl;
    lit "      <li><strong>Brand:</strong> "; brand req; lit "</li>"; nl;
    lit "      <li><strong>Model:</strong> "; model req; lit "</li>"; nl;
    lit "      <li><strong>Issue:</strong> "; issue req; lit "</li>"; nl;
    lit "      <li><strong>IMEI/Serial:</strong> "; imei req; lit "</li>"; nl;
    lit "      <li><strong>Region/Carrier:</strong> "; or_dash (region req); nl;
    lit "      <li><strong>Name:</strong> "; name req; lit "</li>"; nl;
    lit "      <li><strong>Email:</strong> "; email req; lit "</li>"; nl;
    lit "      <li><strong>Notes:</strong> "; or_dash (notes req); nl;
    lit "    </ul>"; nl;
    lit "    <p>Status: "; status_str (status req); lit "</p>"; nl;
    lit "    " ].

Definition admin_text (req : UnlockRequest) (doc_id : str) : str :=
  concat [
    lit "New Unlock Request"; nl;
    lit "ID: "; doc_id; nl;
    lit "Brand: "; brand req; nl;
    lit "Model: "; model req; nl;
    lit "Issue: "; issue req; nl;
    lit "IMEI/Serial: "; imei req; nl;
    lit "Region: "; or_dash (region req); nl;
    lit "Name: "; name req; nl;
    lit "Email: "; email req; nl;
    lit "Notes: "; or_dash (notes req); nl;
    lit "Status: "; status_str (status req); nl ].

(** The two bodies of the customer's acknowledgment. *)
Definition customer_html (req : UnlockRequest) (doc_id : str) : str :=
  concat [
    nl;
    lit "    <h2>Thanks, "; name req; lit "!</h2>"; nl;
    lit "    <p>We've received your request and will get back to you shortly.</p>"; nl;
    lit "    <p><strong>Reference ID:</strong> "; doc_id; lit "</p>"; nl;
    lit "    <p>Summary:</p>"; nl;
    lit "    <ul>"; nl;
    lit "      <li><strong>Device:</strong> "; brand req; lit " "; model req; lit "</li>"; nl;
    lit "      <li><strong>Issue:</strong> "; issue req; lit "</li>"; nl;
    lit "      <li><strong>IMEI/Serial:</strong> "; imei req; lit "</li>"; nl;
    lit "      <li><strong>Region/Carrier:</strong> "; or_dash (region req); nl;
    lit "    </ul>"; nl;
    lit "    <p>If anything is incorrect, reply to this email with corrections.</p>"; nl;
    lit "    <p>"; [8212]; lit " PhoneLockRemover</p>"; nl;
    lit "    " ].

Definition customer_text (req : UnlockRequest) (doc_id : str) : str :=
  concat [
    lit "Thanks, "; name req; lit "! We received your unlock request."; nl;
    lit "Reference ID: "; doc_id; nl;
    lit "Device: "; brand req; lit " "; model req; nl;
    lit "Issue: "; issue req; nl;
    lit "IMEI/Serial: "; imei req; nl;
    lit "Region/Carrier: "; or_dash (region req); nl;
    lit "We'll contact you at this email once we review."; nl ].

(** The world after [ops] went on the wire. *)
Definition on_wire (w : World) (ops : list smtp_op) : World :=
  {| stdout := stdout w; network := network w ++ ops |}.

(** The subject of the administrator's notification. *)
Definition admin_subject (req : UnlockRequest) (doc_id : str) : str :=
  lit "New Unlock Request " ++ [8226] ++ lit " " ++ brand req ++ lit " "
  ++ model req ++ lit " " ++ [8226] ++ lit " " ++ doc_id.

(** [x] occurs in [l], as one piece. *)
Definition contains (x l : str) : Prop :=
  ∃ before after, l = before ++ x ++ after.

(** What the administrator's notification quotes of a request. *)
Definition admin_quotes (req : UnlockRequest) (doc_id : str) : list str :=
  [doc_id; brand req; model req; issue req; imei req; or_dash (region req);
   name req; email req; or_dash (notes req); status_str (status req)].

(** What the customer's acknowledgment quotes of a request. *)
Definition customer_quotes (req : UnlockRequest) (doc_id : str) : list str :=
  [name req; doc_id; brand req; model req; issue req; imei req;
   or_dash (region req)].

(** The keys [UnlockRequest] reads, in the order of the class body. *)
Definition field_names : list string :=
  ["brand"; "model"; "issue"; "imei"; "region"; "name"; "email"; "notes";
   "status"].

(** What a payload has to hold under an optional key for the request to have
    [r] there: nothing or [null] for [None], the string itself otherwise. *)
Definition optional_is (o : option json) (r : option str) : Prop :=
  match r with
  | None => o = None ∨ o = Some JNull
  | Some s => o = Some (JStr s)
  end.

End Handlers.

(** ** main.py: the diagnostic endpoint *)

Module Diagnostics.

(** What [test_database] uses of the [db] object of [database.py]:
    [db.name], when [hasattr(db, 'name')], and the outcome of
    [db.list_collection_names()], the names or the text of the exception. *)
Record Db := {
  name : option str;
  list_collection_names : str + list str
}.

(** The outcomes of [from database import db]. *)
Inductive Import :=
| ImportError
| ImportRaises (e : str)
| Imported (db : option Db).

(** The dictionary [response], which has these six keys throughout. *)
Record Response := {
  backend : str;
  database : str;
  database_url : option str;
  database_name : option str;
  connection_status : str;
  collections : list str
}.

Definition set_database (v : str) (r : Response) : Response :=
  {| backend := backend r; database := v; database_url := database_url r;
     database_name := database_name r;
     connection_status := connection_status r; collections := collections r |}.

Definition set_database_url (v : option str) (r : Response) : Response :=
  {| backend := backend r; database := database r; database_url := v;
     database_name := database_name r;
     connection_status := connection_status r; collections := collections r |}.

Definition set_database_name (v : option str) (r : Response) : Response :=
  {| backend := backend r; database := database r;
     database_url := database_url r; database_name := v;
     connection_status := connection_status r; collections := collections r |}.

Definition set_connection_status (v : str) (r : Response) : Response :=
  {| backend := backend r; database := database r;
     database_url := database_url r; database_name := database_name r;
     connection_status := v; collections := collections r |}.

Definition set_collections (v : list str) (r : Response) : Response :=
  {| backend := backend r; database := database r;
     database_url := database_url r; database_name := database_name r;
     connection_status := connection_status r; collections := v |}.

(** The two marks of the messages: a check mark and a cross. *)
Definition yes : str := [9989].
Definition no : str := [10060].

(** The warning sign, with its variation selector. *)
Definition warning : str := [9888; 65039].

Definition test_database (environ : gmap string str) (imported : Import)
  : Response :=
  let response :=
    {| backend := yes ++ lit " Running";
       database := no ++ lit " Not Available";
       database_url := None;
       database_name := None;
       connection_status := lit "Not Connected";
       collections := [] |} in
  let response :=
    match imported with
    | Imported (Some db) =>
        let response := set_database (yes ++ lit " Available") response in
        let response :=
          set_database_url (Some (yes ++ lit " Configured")) response in
        let response :=
          set_database_name
            (Some (default (yes ++ lit " Connected") (name db))) response in
        let response := set_connection_status (lit "Connected") response in
        match list_collection_names db with
        | inr names =>
            let response := set_collections (take 10 names) response in
            set_database (yes ++ lit " Connected & Working") response
        | inl e =>
            set_database
              (warning ++ lit "  Connected but Error: " ++ take 50 e) response
        end
    | Imported None =>
        set_database (warning ++ lit "  Available but not initialized")
          response
    | ImportError =>
        set_database
          (no ++ lit " Database module not found (run enable-database first)")
          response
    | ImportRaises e =>
        set_database (no ++ lit " Error: " ++ take 50 e) response
    end in
  let response :=
    set_database_url
      (Some (if truthy (environ !! "DATABASE_URL") then yes ++ lit " Set"
             else no ++ lit " Not Set")) response in
  let response :=
    set_database_name
      (Some (if truthy (environ !! "DATABASE_NAME") then yes ++ lit " Set"
             else no ++ lit " Not Set")) response in
  response.

End Diagnostics.

(** ** More concrete inputs *)

Module MoreExamples.
Import Schema Database Main App Examples Handlers.

(** A configured mail server that takes every step. *)
Definition accepting : Env :=
  {| environ :=
       <["SMTP_HOST" := lit "smtp.example.com"]> (
       <["SMTP_USER" := lit "mailer"]> (
       <["SMTP_PASS" := lit "secret"]> ∅));
     smtp_ok := λ _, true;
     email_error := λ _, None |}.

(** No mail server is configured. *)
Definition unconfigured : Env :=
  {| environ := ∅; smtp_ok := λ _, true; email_error := λ _, None |}.

(** A request whose brand runs over two lines. *)
Definition two_line_brand : UnlockRequest :=
  {| brand := lit "Apple" ++ [10] ++ lit "Bcc: x@example.com";
     model := lit "iPhone 12"; issue := lit "Carrier Lock";
     imei := lit "123456789012"; region := None; name := lit "Jane Doe";
     email := lit "jane@example.com"; notes := None; status := new |}.

(** Two stored documents: an identifier that is no string yet, and one
    that is. *)
Definition two_documents : list (gmap string value) :=
  [<["_id" := VObjectId 7]> (model_dump jane_request);
   <["_id" := VStr (lit "abc")]> (model_dump jane_request)].

(** A database with twelve collections. *)
Definition twelve_collections : Diagnostics.Db :=
  {| Diagnostics.name := Some (lit "unlock");
     Diagnostics.list_collection_names :=
       inr (replicate 12 (lit "unlockrequest")) |}.

End MoreExamples.

(** * Properties *)

Import Schema Database Main App Examples.

(** ** The scenario of the specification, evaluated *)

Example jane_is_valid : validate (ev := has_at) (JObj jane) = inr jane_request.
Proof. reflexivity. Qed.

Example jane_is_answered :
  (post_api_unlock (ev := has_at) (JObj jane) empty_store).1.2
  = OK {| id := lit "0";
          message := lit "Request received. We'll email you with next steps." |}.
Proof. reflexivity. Qed.

Example jane_is_listed :
  (get_api_unlock (cfg := rejecting) (Some 1%Z)
     (post_api_unlock (ev := has_at) (JObj jane) empty_store).1.1).2
  = OK [<["_id" := VStr (lit "0")]> (model_dump jane_request)].
Proof. vm_compute. reflexivity. Qed.

Example not_an_email_is_refused :
  validate (ev := has_at) (JObj (<["email" := JStr (lit "not-an-email")]> jane))
  = inl [{| loc := "email"; type := value_error |}].
Proof. reflexivity. Qed.

Example int_reads_ports :
  py_int (lit "587") = Some 587%Z ∧ py_int (lit " 2_525 ") = Some 2525%Z
  ∧ py_int (lit "abc") = None ∧ py_int (lit "") = None.
Proof. repeat split; reflexivity. Qed.

(** [int] reads the decimal digits of every script, takes the control
    characters 28 to 31 for no white space, and refuses more than 4300
    digits, leading zeros counted. *)
Example int_as_the_interpreter :
  py_int [1637; 1640; 1639] = Some 587%Z
  ∧ py_int (160 :: lit "587") = Some 587%Z
  ∧ py_int (28 :: lit "587") = None
  ∧ py_int (replicate 4299 48 ++ lit "7") = Some 7%Z
  ∧ py_int (replicate 4300 48 ++ lit "7") = None.
Proof. repeat split; vm_compute; reflexivity. Qed.

Example header_lines :
  count_lines false (lit "one line") = 1%nat
  ∧ count_lines false (lit "two" ++ [13; 10] ++ lit "lines") = 2%nat.
Proof. split; reflexivity. Qed.

(** ** Validation *)

Section Validation.
Context {ev : EmailValidator}.

Ltac failing_field :=
  right; split;
  [ done
  | unfold field_errors;
    repeat match goal with
           | E : Field _ _ _ _ = _ |- _ => rewrite E; clear E
           end;
    done ].

Lemma validate_cases d :
  (∃ req, validate (JObj d) = inr req ∧ accepts d req ∧ field_errors d = [])
  ∨ (validate (JObj d) = inl (field_errors d) ∧ field_errors d ≠ []).
Proof.
  unfold validate, accepts.
  destruct (Field None (str_type None None) d "brand") as [?|b] eqn:E1;
    [failing_field |].
  destruct (Field None (str_type None None) d "model") as [?|m] eqn:E2;
    [failing_field |].
  destruct (Field None (str_type None None) d "issue") as [?|i] eqn:E3;
    [failing_field |].
  destruct (Field None (str_type (Some 8%nat) (Some 20%nat)) d "imei")
    as [?|im] eqn:E4; [failing_field |].
  destruct (Field (Some None) optional_str d "region") as [?|r] eqn:E5;
    [failing_field |].
  destruct (Field None (str_type None None) d "name") as [?|n] eqn:E6;
    [failing_field |].
  destruct (Field None email_str d "email") as [?|e] eqn:E7;
    [failing_field |].
  destruct (Field (Some None) optional_str d "notes") as [?|nt] eqn:E8;
    [failing_field |].
  destruct (Field (Some new) literal_status d "status") as [?|s] eqn:E9;
    [failing_field |].
  left. eexists. split; [done |]. split; [cbn; tauto |].
  unfold field_errors. by rewrite E1, E2, E3, E4, E5, E6, E7, E8, E9.
Qed.

Lemma validate_inr_obj raw req :
  validate raw = inr req → ∃ d, raw = JObj d ∧ accepts d req.
Proof.
  destruct raw as [| | | | |d]; try discriminate. intros Hv. exists d.
  split; [done |].
  destruct (validate_cases d) as [(req' & Hv' & Hacc & _)|[Hv' _]];
    congruence.
Qed.

Lemma accepts_validate d req : accepts d req → validate (JObj d) = inr req.
Proof.
  intros Hacc.
  destruct (validate_cases d) as [(req' & Hv' & Hacc' & _)|[_ Hne]].
  - rewrite Hv'. f_equal. unfold accepts in *. destruct req, req'; cbn in *.
    destruct_and!. congruence.
  - exfalso. apply Hne. unfold accepts in Hacc. destruct_and!.
    unfold field_errors.
    repeat match goal with
           | E : Field _ _ _ _ = _ |- _ => rewrite E; clear E
           end.
    done.
Qed.

Lemma errors_validate d e :
  e ∈ field_errors d → validate (JObj d) = inl (field_errors d).
Proof.
  intros Hin.
  destruct (validate_cases d) as [(req & _ & _ & Hnil)|[Hv _]]; [|done].
  rewrite Hnil in Hin. by apply elem_of_nil in Hin.
Qed.

Lemma errors_of_Field_loc {A} dflt (check : json → error_type + A) d key e :
  e ∈ errors_of (Field dflt check d key) → loc e = key.
Proof.
  unfold Field. destruct (d !! key) as [v|].
  - destruct (check v); cbn; [|by intros ?%elem_of_nil].
    by intros ->%list_elem_of_singleton.
  - destruct dflt; cbn; [by intros ?%elem_of_nil|].
    by intros ->%list_elem_of_singleton.
Qed.

Lemma Field_insert_ne {A} dflt (check : json → error_type + A) d key key' v :
  key ≠ key' → Field dflt check (<[key:=v]> d) key' = Field dflt check d key'.
Proof. intros Hne. unfold Field. by rewrite lookup_insert_ne. Qed.

Lemma Field_missing {A} (check : json → error_type + A) d key :
  d !! key = None →
  Field None check d key = inl {| loc := key; type := missing |}.
Proof. intros Hd. unfold Field. by rewrite Hd. Qed.

End Validation.

(** ** What validation guarantees *)

Section ValidationProperties.
Context {ev : EmailValidator}.

(** C6. A payload that lacks one of the required fields ([brand], [model],
    [issue], [imei], [name], [email]) is answered with the validation errors,
    among them the missing field when the body is an object, and the store is
    handed back as it was: nothing is written. *)
Theorem missing_required_field_rejected (raw : json) (key : string)
    (st : Store) :
  key ∈ required_fields →
  lookup_field raw key = None →
  ∃ errors,
    post_api_unlock raw st = (st, UnprocessableEntity errors, [])
    ∧ errors ≠ []
    ∧ ∀ d, raw = JObj d → {| loc := key; type := missing |} ∈ errors.
Proof.
  intros Hkey Hnone. unfold post_api_unlock.
  destruct raw as [| | | | |d];
    try (eexists; split; [reflexivity | split; [done | intros; discriminate]]).
  cbn in Hnone.
  assert ({| loc := key; type := missing |} ∈ field_errors d) as Hin.
  { unfold required_fields in Hkey. unfold field_errors.
    repeat (apply elem_of_cons in Hkey as [->|Hkey]);
      [..|by apply elem_of_nil in Hkey];
      rewrite (Field_missing _ _ _ Hnone); cbn; set_solver. }
  rewrite (errors_validate _ _ Hin). exists (field_errors d).
  split; [done |]. split.
  - intros Hnil. rewrite Hnil in Hin. by apply elem_of_nil in Hin.
  - by intros d' [= <-].
Qed.

Lemma str_type_plain_inr v s :
  str_type None None v = inr s ↔ v = JStr s.
Proof.
  unfold str_type. destruct v; cbn; split; intros Hv; try discriminate;
    congruence.
Qed.

Lemma Field_required_inr {A} (check : json → error_type + A) d key a :
  Field None check d key = inr a ↔ ∃ v, d !! key = Some v ∧ check v = inr a.
Proof.
  unfold Field. destruct (d !! key) as [v|]; split.
  - destruct (check v) eqn:E; [discriminate|]. intros [= <-]. eauto.
  - intros (v' & [= <-] & ->). done.
  - discriminate.
  - intros (v' & [=] & _).
Qed.

(** C4, as amended. A request that validation accepts has its [brand],
    [model], [issue] and [name] from the payload, which gives each of them as
    a string; the string is taken as it is and may be empty. So a payload in
    which one of them is missing or is no string is rejected. *)
Theorem required_text_fields_verbatim (raw : json) (req : UnlockRequest) :
  validate raw = inr req →
  lookup_field raw "brand" = Some (JStr (brand req))
  ∧ lookup_field raw "model" = Some (JStr (model req))
  ∧ lookup_field raw "issue" = Some (JStr (issue req))
  ∧ lookup_field raw "name" = Some (JStr (name req)).
Proof.
  intros (d & -> & Hacc)%validate_inr_obj. cbn.
  destruct Hacc as (Hb & Hm & Hi & _ & _ & Hn & _).
  apply Field_required_inr in Hb as (vb & -> & ->%str_type_plain_inr).
  apply Field_required_inr in Hm as (vm & -> & ->%str_type_plain_inr).
  apply Field_required_inr in Hi as (vi & -> & ->%str_type_plain_inr).
  apply Field_required_inr in Hn as (vn & -> & ->%str_type_plain_inr).
  done.
Qed.

Lemma str_type_imei s :
  str_type (Some 8%nat) (Some 20%nat) (JStr s)
  = if (length s <? 8)%nat then inl string_too_short
    else if (20 <? length s)%nat then inl string_too_long
    else inr s.
Proof. reflexivity. Qed.

Lemma accepts_set_imei d s s0 req0 :
  (8 ≤ length s ≤ 20)%nat →
  accepts (<["imei" := JStr s0]> d) req0 →
  accepts (<["imei" := JStr s]> d) (set_imei s req0).
Proof.
  intros [Hlo Hhi]. unfold accepts. cbn.
  intros (Hb & Hm & Hi & _ & Hr & Hn & He & Hnt & Hs).
  rewrite Field_insert_ne in Hb by done. rewrite Field_insert_ne in Hm by done.
  rewrite Field_insert_ne in Hi by done. rewrite Field_insert_ne in Hr by done.
  rewrite Field_insert_ne in Hn by done. rewrite Field_insert_ne in He by done.
  rewrite Field_insert_ne in Hnt by done.
  rewrite Field_insert_ne in Hs by done.
  repeat split; try (rewrite Field_insert_ne by done; done).
  unfold Field. rewrite lookup_insert_eq, str_type_imei.
  destruct (Nat.ltb_spec (length s) 8); [lia |].
  destruct (Nat.ltb_spec 20 (length s)); [lia | done].
Qed.

(** C7. Put a string [s] under [imei]. When its length is below 8 or above
    20 validation fails, with an error at [imei]; when it is from 8 to 20
    there is no error at [imei], and the payload is accepted whenever it is
    with any other value of [imei], so its other fields are in order. Lengths
    7 and 21 fail; 8 and 20 pass. *)
Theorem imei_length_bounds (d : gmap string json) (s : str) :
  ((length s < 8 ∨ 20 < length s)%nat →
     validate (JObj (<["imei" := JStr s]> d))
     = inl (field_errors (<["imei" := JStr s]> d))
     ∧ ∃ t, {| loc := "imei"; type := t |}
            ∈ field_errors (<["imei" := JStr s]> d))
  ∧ ((8 ≤ length s ≤ 20)%nat →
     (∀ t, {| loc := "imei"; type := t |}
           ∉ field_errors (<["imei" := JStr s]> d))
     ∧ ∀ s0 req0,
         validate (JObj (<["imei" := JStr s0]> d)) = inr req0 →
         validate (JObj (<["imei" := JStr s]> d)) = inr (set_imei s req0)).
Proof.
  assert (Field None (str_type (Some 8%nat) (Some 20%nat))
            (<["imei" := JStr s]> d) "imei"
          = match str_type (Some 8%nat) (Some 20%nat) (JStr s) with
            | inl e => inl {| loc := "imei"; type := e |}
            | inr a => inr a
            end) as HF.
  { unfold Field. by rewrite lookup_insert_eq. }
  rewrite str_type_imei in HF. split.
  - intros Hout.
    assert (∃ t, {| loc := "imei"; type := t |}
                 ∈ field_errors (<["imei" := JStr s]> d)) as [t Ht].
    { unfold field_errors. rewrite HF.
      destruct (Nat.ltb_spec (length s) 8);
        [exists string_too_short; cbn; rewrite !elem_of_app; do 3 right;
         left; apply list_elem_of_here |].
      destruct (Nat.ltb_spec 20 (length s)); [|lia].
      exists string_too_long; cbn; rewrite !elem_of_app; do 3 right.
      left; apply list_elem_of_here. }
    split; [by eapply errors_validate | by exists t].
  - intros [Hlo Hhi]. split.
    + intros t. unfold field_errors. rewrite HF.
      destruct (Nat.ltb_spec (length s) 8); [lia |].
      destruct (Nat.ltb_spec 20 (length s)); [lia |].
      rewrite !elem_of_app.
      intros Hin. destruct_or!;
        first [ by apply elem_of_nil in Hin
              | by apply errors_of_Field_loc in Hin ].
    + intros s0 req0 (d0 & [= <-] & Hacc)%validate_inr_obj.
      apply accepts_validate. by eapply accepts_set_imei.
Qed.

Lemma literal_status_inr (s : Status) :
  literal_status (JStr (status_str s)) = inr s.
Proof. by destruct s. Qed.

Lemma literal_status_inr_inv v s :
  literal_status v = inr s → v = JStr (status_str s).
Proof.
  destruct v as [| | |t| |]; try discriminate. unfold literal_status.
  destruct (filter (λ st, status_str st = t) all_status) as [|s' l] eqn:Hf;
    [discriminate |].
  intros [= ->].
  assert (s ∈ filter (λ st, status_str st = t) all_status) as Hin
    by (rewrite Hf; apply list_elem_of_here).
  apply list_elem_of_filter in Hin as [<- _]. done.
Qed.

Lemma literal_status_outside v :
  (∀ s, v ≠ JStr (status_str s)) → literal_status v = inl literal_error.
Proof.
  intros Hout. destruct (literal_status v) as [e|s] eqn:Hl.
  - destruct v as [| | |t| |]; unfold literal_status in Hl; try congruence.
    destruct (filter (λ st, status_str st = t) all_status); congruence.
  - by apply literal_status_inr_inv, Hout in Hl.
Qed.

Lemma field_errors_elsewhere d v e :
  e ∈ field_errors d → loc e ≠ "status" →
  e ∈ field_errors (<["status" := v]> d).
Proof.
  unfold field_errors. rewrite !elem_of_app.
  rewrite !(Field_insert_ne _ _ _ "status") by done.
  intros Hin Hloc. destruct_or!; auto 10.
  by apply errors_of_Field_loc in Hin.
Qed.

Lemma status_absent_no_error d e :
  d !! "status" = None → e ∈ field_errors d → loc e ≠ "status".
Proof.
  intros Hnone. unfold field_errors. rewrite !elem_of_app.
  unfold Field at 9. rewrite Hnone. cbn.
  intros Hin. destruct_or!;
    [apply errors_of_Field_loc in Hin as ->; done .. |].
  by apply elem_of_nil in Hin.
Qed.

(** C9. A [status] that is none of [new], [in_progress], [completed],
    [failed] makes validation fail with an error at [status].  A payload
    with no [status] key is validated as the same payload with
    ["status": "new"] is: no error is reported at [status], the outcome is
    the same, an accepted one has status [new], and the payload is accepted
    whenever, with some value put at [status], that value was all validation
    objected to. *)
Theorem status_enumeration (d : gmap string json) :
  (∀ v, d !! "status" = Some v →
        (∀ s, v ≠ JStr (status_str s)) →
        validate (JObj d) = inl (field_errors d)
        ∧ {| loc := "status"; type := literal_error |} ∈ field_errors d)
  ∧ (d !! "status" = None →
     (∀ e, e ∈ field_errors d → loc e ≠ "status")
     ∧ validate (JObj d)
       = validate (JObj (<["status" := JStr (status_str new)]> d))
     ∧ (∀ req, validate (JObj d) = inr req → status req = new)
     ∧ (∀ v, (∀ e, e ∈ field_errors (<["status" := v]> d) →
                   loc e = "status") →
             ∃ req, validate (JObj d) = inr req ∧ status req = new)).
Proof.
  split.
  - intros v Hv Hout.
    assert ({| loc := "status"; type := literal_error |} ∈ field_errors d)
      as Hin.
    { unfold field_errors, Field at 9.
      rewrite Hv, (literal_status_outside _ Hout). cbn.
      rewrite !elem_of_app. do 8 right. apply list_elem_of_here. }
    split; [by eapply errors_validate | done].
  - intros Hnone.
    assert (Field (Some new) literal_status d "status" = inr new) as HF
      by (unfold Field; by rewrite Hnone).
    assert (∀ req, validate (JObj d) = inr req → status req = new) as Hnew.
    { intros req (d' & [= <-] & Hacc)%validate_inr_obj.
      unfold accepts in Hacc. destruct_and!. congruence. }
    split; [intros e; by apply (status_absent_no_error d) |].
    split; [| split; [done |]].
    + unfold validate, field_errors.
      rewrite !(Field_insert_ne _ _ _ "status") by done.
      assert (Field (Some new) literal_status
                (<["status" := JStr (status_str new)]> d) "status" = inr new)
        as -> by (unfold Field; by rewrite lookup_insert_eq).
      by rewrite HF.
    + intros v Honly.
      destruct (validate_cases d) as [(req & Hv & _)|[_ Hne]];
        [exists req; split; [done | by apply Hnew] |].
      exfalso. destruct (field_errors d) as [|e l] eqn:Herrs; [done |].
      assert (e ∈ field_errors d) as Hin by (rewrite Herrs; left).
      apply (status_absent_no_error d e Hnone Hin).
      apply Honly. apply (field_errors_elsewhere d v e); [done |].
      by apply (status_absent_no_error d).
Qed.

End ValidationProperties.

Lemma missing_required_field_rejected_witness :
  ∃ errors,
    post_api_unlock (ev := has_at) (JObj (delete "imei" jane)) empty_store
    = (empty_store, UnprocessableEntity errors, [])
    ∧ errors ≠ []
    ∧ ∀ d, JObj (delete "imei" jane) = JObj d →
           {| loc := "imei"; type := missing |} ∈ errors.
Proof.
  apply (missing_required_field_rejected (ev := has_at)).
  - unfold required_fields. repeat constructor.
  - reflexivity.
Defined.

(** C4, as stated, fails: with an empty [brand] the payload of the example
    is accepted, and the accepted request has the empty brand. *)
Lemma empty_brand_accepted :
  validate (ev := has_at) (JObj no_brand) = inr no_brand_request
  ∧ brand no_brand_request = [].
Proof. split; reflexivity. Qed.

Lemma required_text_fields_verbatim_witness :
  validate (ev := has_at) (JObj no_brand) = inr no_brand_request
  ∧ lookup_field (JObj no_brand) "brand" = Some (JStr [])
  ∧ lookup_field (JObj no_brand) "model" = Some (JStr (lit "iPhone 12"))
  ∧ lookup_field (JObj no_brand) "issue" = Some (JStr (lit "Carrier Lock"))
  ∧ lookup_field (JObj no_brand) "name" = Some (JStr (lit "Jane Doe")).
Proof.
  split; [reflexivity |].
  apply (required_text_fields_verbatim (ev := has_at) (JObj no_brand)
           no_brand_request).
  reflexivity.
Defined.

Lemma imei_length_bounds_witness :
  (∃ t, {| loc := "imei"; type := t |}
        ∈ field_errors (ev := has_at) (<["imei" := JStr (ones 7)]> jane))
  ∧ (∃ t, {| loc := "imei"; type := t |}
          ∈ field_errors (ev := has_at) (<["imei" := JStr (ones 21)]> jane))
  ∧ validate (ev := has_at) (JObj (<["imei" := JStr (ones 8)]> jane))
    = inr (set_imei (ones 8) jane_request)
  ∧ validate (ev := has_at) (JObj (<["imei" := JStr (ones 20)]> jane))
    = inr (set_imei (ones 20) jane_request).
Proof.
  split; [|split; [|split]].
  - apply (imei_length_bounds (ev := has_at) jane (ones 7)). cbn. lia.
  - apply (imei_length_bounds (ev := has_at) jane (ones 21)). cbn. lia.
  - destruct (imei_length_bounds (ev := has_at) jane (ones 8)) as [_ Hin].
    destruct Hin as [_ Hacc]; [cbn; lia |].
    apply (Hacc (lit "123456789012")). reflexivity.
  - destruct (imei_length_bounds (ev := has_at) jane (ones 20)) as [_ Hin].
    destruct Hin as [_ Hacc]; [cbn; lia |].
    apply (Hacc (lit "123456789012")). reflexivity.
Defined.

Lemma status_enumeration_witness :
  (validate (ev := has_at) (JObj (<["status" := JStr (lit "done")]> jane))
   = inl [{| loc := "status"; type := literal_error |}])
  ∧ (validate (ev := has_at) (JObj (<["status" := JNull]> jane))
     = inl [{| loc := "status"; type := literal_error |}])
  ∧ (validate (ev := has_at) (JObj jane)
     = validate (ev := has_at) (JObj (<["status" := JStr (lit "new")]> jane)))
  ∧ ∃ req, validate (ev := has_at) (JObj jane) = inr req ∧ status req = new.
Proof.
  split; [|split; [|split]].
  - destruct (status_enumeration (ev := has_at)
                (<["status" := JStr (lit "done")]> jane)) as [Hout _].
    apply (Hout (JStr (lit "done"))); [reflexivity |].
    intros s. by destruct s.
  - destruct (status_enumeration (ev := has_at)
                (<["status" := JNull]> jane)) as [Hout _].
    apply (Hout JNull); [reflexivity | done].
  - destruct (status_enumeration (ev := has_at) jane) as [_ Habsent].
    destruct Habsent as (_ & Hsame & _); [reflexivity |].
    exact Hsame.
  - destruct (status_enumeration (ev := has_at) jane) as [_ Habsent].
    destruct Habsent as (_ & _ & _ & Honly); [reflexivity |].
    apply (Honly (JStr (lit "done"))).
    intros e Hin. vm_compute in Hin.
    by apply list_elem_of_singleton in Hin as ->.
Defined.

(** ** The store *)

Lemma lit_inj : Inj (=) (=) lit.
Proof.
  intros s1 s2 Heq. unfold lit in Heq.
  apply (list_fmap_eq_inj _) in Heq.
  - rewrite <- (String.string_of_list_ascii_of_string s1),
      <- (String.string_of_list_ascii_of_string s2). by f_equal.
  - intros a1 a2 Ha. rewrite <- (Ascii.ascii_N_embedding a1),
      <- (Ascii.ascii_N_embedding a2). by f_equal.
Qed.

Lemma str_oid_inj : Inj (=) (=) str_oid.
Proof. intros n1 n2 Heq. by apply lit_inj, (inj pretty) in Heq. Qed.

Lemma filter_none {A} (P : A → Prop) `{∀ x, Decision (P x)} (l : list A) :
  Forall (λ x, ¬ P x) l → filter P l = [].
Proof.
  induction 1 as [|x l Hx _ IH]; [done |].
  by rewrite filter_cons_False.
Qed.

Lemma store_wf_empty : store_wf empty_store.
Proof. intros c d Hin. cbn in Hin. by apply elem_of_nil in Hin. Qed.

Lemma create_document_available c req st :
  available st = true →
  create_document c req st
  = ({| available := true;
        next_oid := next_oid st + 1;
        collections :=
          <[c := collection c st
                 ++ [<["_id" := VObjectId (next_oid st)]> (model_dump req)]]>
            (collections st) |},
     inr (str_oid (next_oid st))).
Proof. intros Hav. unfold create_document. by rewrite Hav. Qed.

(** Inserting keeps the store well formed. *)
Lemma store_wf_create c req st :
  store_wf st → store_wf (create_document c req st).1.
Proof.
  intros Hwf. unfold create_document.
  destruct (available st); [|done]. cbn.
  intros c' d. unfold collection at 1. cbn.
  destruct (decide (c = c')) as [<-|Hne].
  - rewrite lookup_insert_eq. cbn.
    intros [Hin| ->%list_elem_of_singleton]%elem_of_app.
    + destruct (Hwf c d Hin) as (oid & Hid & Hlt). exists oid. split; [done|lia].
    + exists (next_oid st). rewrite lookup_insert_eq. split; [done|lia].
  - rewrite lookup_insert_ne by done. intros Hin.
    destruct (Hwf c' d Hin) as (oid & Hid & Hlt). exists oid. split; [done|lia].
Qed.

Lemma model_dump_status req :
  model_dump req !! "status" = Some (VStr (status_str (status req))).
Proof.
  unfold model_dump. rewrite !lookup_insert_ne by done.
  apply lookup_insert_eq.
Qed.

Lemma stringify_id_stored d oid :
  d !! "_id" = Some (VObjectId oid) →
  stringify_id d = <["_id" := VStr (str_oid oid)]> d.
Proof. intros Hid. unfold stringify_id. by rewrite Hid. Qed.

Section StoreProperties.
Context {ev : EmailValidator} {cfg : StoreConfig}.

Lemma submit_available req st :
  available st = true →
  submit_unlock_request req [] st
  = ((create_document "unlockrequest" req st).1,
     inr {| id := str_oid (next_oid st);
            message := lit "Request received. We'll email you with next steps." |},
     [send_admin_notification req (str_oid (next_oid st));
      send_customer_autoresponse req (str_oid (next_oid st))]).
Proof.
  intros Hav. unfold submit_unlock_request.
  by rewrite (create_document_available _ _ _ Hav).
Qed.

Lemma collection_create c req st :
  available st = true →
  collection c (create_document c req st).1
  = collection c st
    ++ [<["_id" := VObjectId (next_oid st)]> (model_dump req)].
Proof.
  intros Hav. rewrite (create_document_available _ _ _ Hav).
  unfold collection at 1. cbn. by rewrite lookup_insert_eq.
Qed.

(** C5. The listing never holds more documents than the limit, which is 50
    when the query gives none. A limit that is not positive is not read as
    "no limit": the store either refuses it, and the endpoint fails, or
    clamps it to its floor, which then caps the listing. The endpoint fails
    in no other case than a refused limit or a store that cannot be
    reached, and never changes the store. *)
Theorem list_capped_at_limit (limit : option Z) (st : Store) :
  get_api_unlock None st = get_api_unlock (Some 50%Z) st
  ∧ match get_api_unlock limit st with
    | (st', OK docs) =>
        st' = st
        ∧ ((0 < default 50 limit)%Z →
           (Z.of_nat (length docs) ≤ default 50 limit)%Z)
        ∧ ((default 50 limit ≤ 0)%Z →
           ∃ floor, nonpositive_limit = ClampLimit floor
                    ∧ (length docs ≤ Pos.to_nat floor)%nat)
    | (st', Failed e) =>
        st' = st
        ∧ (available st = false
           ∨ ((default 50 limit ≤ 0)%Z ∧ nonpositive_limit = RejectLimit))
    | (_, UnprocessableEntity _) => False
    end.
Proof.
  split; [done |].
  unfold get_api_unlock, list_unlock_requests, get_documents.
  destruct (available st) eqn:Hav; [|by split; [|left]].
  destruct (Z.ltb_spec 0 (default 50%Z limit)) as [Hpos|Hnonpos].
  - split; [done |]. rewrite length_fmap, length_take. split; [|lia].
    intros _. lia.
  - destruct nonpositive_limit as [|floor] eqn:Hpol.
    + split; [done |]. by right.
    + split; [done |]. split; [lia |]. intros _. exists floor.
      split; [done |]. rewrite length_fmap, length_take. lia.
Qed.

(** C10. A payload that gives one of the four values under [status] is
    stored with that value: the accepted request carries it and the document
    appended to the collection has it under [status]. *)
Theorem client_status_persisted (raw : json) (req : UnlockRequest)
    (s : Status) (st : Store) :
  lookup_field raw "status" = Some (JStr (status_str s)) →
  validate raw = inr req →
  available st = true →
  status req = s
  ∧ ∃ st' r tasks d,
      post_api_unlock raw st = (st', OK r, tasks)
      ∧ collection "unlockrequest" st'
        = collection "unlockrequest" st ++ [d]
      ∧ d !! "status" = Some (VStr (status_str s)).
Proof.
  intros Hs Hv Hav.
  destruct (validate_inr_obj _ _ Hv) as (d & -> & Hacc). cbn in Hs.
  assert (status req = s) as Hreq.
  { unfold accepts in Hacc. destruct_and!.
    match goal with
    | E : Field _ literal_status _ _ = _ |- _ =>
        unfold Field in E; rewrite Hs, literal_status_inr in E
    end.
    congruence. }
  split; [done |].
  unfold post_api_unlock. rewrite Hv, (submit_available _ _ Hav).
  do 4 eexists. split; [done |]. split.
  - by apply collection_create.
  - rewrite lookup_insert_ne by done. by rewrite model_dump_status, Hreq.
Qed.

End StoreProperties.

Section SubmitThenList.
Context {ev : EmailValidator} {cfg : StoreConfig}.

(** With a limit that covers the collection, the listing is the whole
    collection, each identifier as a string, in the order of the store. *)
Lemma list_covering (limit : Z) (st : Store) :
  available st = true →
  collection "unlockrequest" st ≠ [] →
  (Z.of_nat (length (collection "unlockrequest" st)) ≤ limit)%Z →
  list_unlock_requests limit st
  = (st, inr (stringify_id <$>
                match order with
                | NaturalOrder => collection "unlockrequest" st
                | MostRecentFirst => reverse (collection "unlockrequest" st)
                end)).
Proof.
  intros Hav Hne Hlen. unfold list_unlock_requests, get_documents.
  rewrite Hav.
  assert (0 < length (collection "unlockrequest" st))%nat
    by (destruct (collection "unlockrequest" st); [done | cbn; lia]).
  destruct (Z.ltb_spec 0 limit); [|lia].
  rewrite take_ge; [done |].
  destruct order; rewrite ?length_reverse; lia.
Qed.

(** Among the stringified documents of a well-formed store, none has the
    identifier the store hands out next. *)
Lemma fresh_id_not_listed (st : Store) :
  store_wf st →
  Forall (λ d, ¬ d !! "_id" = Some (VStr (str_oid (next_oid st))))
    (stringify_id <$> collection "unlockrequest" st).
Proof.
  intros Hwf. apply Forall_fmap, Forall_forall. intros d Hin.
  destruct (Hwf _ _ Hin) as (oid & Hid & Hlt). cbn.
  rewrite (stringify_id_stored _ _ Hid), lookup_insert_eq.
  intros [= Heq%str_oid_inj]. lia.
Qed.

(** C1, as amended. When the store can be reached, a payload that validation
    accepts is stored: the answer carries the identifier the store generated,
    and a listing whose limit covers the collection holds exactly one
    document with that identifier, the fields of the validated request next
    to it; its status is [new] when the payload gave none.  A listing with a
    smaller limit may leave the new document out. *)
Theorem submit_then_list (raw : json) (req : UnlockRequest) (st : Store)
    (limit : option Z) :
  validate raw = inr req →
  available st = true →
  store_wf st →
  ∃ st' r,
    post_api_unlock raw st
    = (st', OK r, [send_admin_notification req (id r);
                   send_customer_autoresponse req (id r)])
    ∧ id r = str_oid (next_oid st)
    ∧ store_wf st'
    ∧ ((Z.of_nat (length (collection "unlockrequest" st'))
        ≤ default 50 limit)%Z →
       ∃ docs,
         get_api_unlock limit st' = (st', OK docs)
         ∧ filter (λ d, d !! "_id" = Some (VStr (id r))) docs
           = [<["_id" := VStr (id r)]> (model_dump req)])
    ∧ (lookup_field raw "status" = None →
       model_dump req !! "status" = Some (VStr (lit "new"))).
Proof.
  intros Hv Hav Hwf.
  exists (create_document "unlockrequest" req st).1.
  exists {| id := str_oid (next_oid st);
            message := lit "Request received. We'll email you with next steps." |}.
  unfold post_api_unlock. rewrite Hv, (submit_available _ _ Hav).
  cbn [id]. split; [reflexivity |]. split; [reflexivity |].
  split; [by apply store_wf_create |]. split.
  - intros Hlen. unfold get_api_unlock.
    assert (available (create_document "unlockrequest" req st).1 = true)
      as Hav' by (by rewrite (create_document_available _ _ _ Hav)).
    rewrite (list_covering _ _ Hav'); [|rewrite (collection_create _ _ _ Hav);
      by intros ?%app_nil_r_inv | done ].
    eexists. split; [done |].
    rewrite (collection_create _ _ _ Hav).
    assert (filter (λ d, d !! "_id" = Some (VStr (str_oid (next_oid st))))
              (stringify_id <$>
                 collection "unlockrequest" st
                 ++ [<["_id" := VObjectId (next_oid st)]> (model_dump req)])
            = [<["_id" := VStr (str_oid (next_oid st))]> (model_dump req)])
      as Hfilter.
    { rewrite fmap_app, filter_app, (filter_none _ _ (fresh_id_not_listed _ Hwf)).
      cbn [fmap list_fmap app].
      rewrite (stringify_id_stored _ (next_oid st)) by apply lookup_insert_eq.
      rewrite insert_insert_eq, filter_cons_True by apply lookup_insert_eq.
      done. }
    destruct order; [done |].
    by rewrite fmap_reverse, filter_reverse, Hfilter.
  - intros Hnone. rewrite model_dump_status.
    destruct (validate_inr_obj _ _ Hv) as (d & -> & Hacc). cbn in Hnone.
    unfold accepts in Hacc. destruct_and!.
    match goal with
    | E : Field _ literal_status _ _ = _ |- _ =>
        unfold Field in E; rewrite Hnone in E; injection E as <-
    end.
    reflexivity.
Qed.

End SubmitThenList.

Lemma list_capped_at_limit_witness :
  get_api_unlock (cfg := clamping) None empty_store
  = get_api_unlock (cfg := clamping) (Some 50%Z) empty_store
  ∧ match get_api_unlock (cfg := clamping) (Some 0%Z) empty_store with
    | (st', OK docs) =>
        st' = empty_store
        ∧ ((0 < 0)%Z → (Z.of_nat (length docs) ≤ 0)%Z)
        ∧ ((0 ≤ 0)%Z →
           ∃ floor, @nonpositive_limit clamping = ClampLimit floor
                    ∧ (length docs ≤ Pos.to_nat floor)%nat)
    | (st', Failed e) =>
        st' = empty_store
        ∧ (available empty_store = false
           ∨ ((0 ≤ 0)%Z ∧ @nonpositive_limit clamping = RejectLimit))
    | (_, UnprocessableEntity _) => False
    end.
Proof. exact (list_capped_at_limit (cfg := clamping) (Some 0%Z) empty_store). Defined.

Lemma client_status_persisted_witness :
  status jane_completed_request = completed
  ∧ ∃ st' r tasks d,
      post_api_unlock (ev := has_at) (JObj jane_completed) empty_store
      = (st', OK r, tasks)
      ∧ collection "unlockrequest" st'
        = collection "unlockrequest" empty_store ++ [d]
      ∧ d !! "status" = Some (VStr (lit "completed")).
Proof.
  apply (client_status_persisted (ev := has_at) (JObj jane_completed)
           jane_completed_request completed empty_store);
    reflexivity.
Defined.

Lemma submit_then_list_witness :
  ∃ st' r docs,
    post_api_unlock (ev := has_at) (JObj jane) empty_store
    = (st', OK r, [send_admin_notification jane_request (id r);
                   send_customer_autoresponse jane_request (id r)])
    ∧ id r = lit "0"
    ∧ get_api_unlock (cfg := rejecting) None st' = (st', OK docs)
    ∧ filter (λ d, d !! "_id" = Some (VStr (id r))) docs
      = [<["_id" := VStr (id r)]> (model_dump jane_request)]
    ∧ model_dump jane_request !! "status" = Some (VStr (lit "new")).
Proof.
  destruct (submit_then_list (ev := has_at) (cfg := rejecting) (JObj jane)
              jane_request empty_store None)
    as (st' & r & Hpost & Hid & _ & Hlist & Hstatus);
    [reflexivity | reflexivity | exact store_wf_empty |].
  assert (st' = (create_document "unlockrequest" jane_request empty_store).1)
    as Hst by (apply (f_equal (λ x, x.1.1)) in Hpost; symmetry; exact Hpost).
  destruct Hlist as (docs & Hget & Hfilter);
    [rewrite Hst; vm_compute; discriminate |].
  exists st', r, docs.
  split; [exact Hpost |]. split; [exact Hid |]. split; [exact Hget |].
  split; [exact Hfilter |]. apply Hstatus. reflexivity.
Defined.

(** C1, as the specification words it, fails: a store that orders a listing
    oldest first already holds fifty requests; the fifty-first is accepted
    and stored under identifier [50], and the listing with the default limit
    returns fifty documents, none of them with that identifier. *)
Lemma fifty_first_submission_not_listed :
  store_wf fifty_requests
  ∧ (post_api_unlock (ev := has_at) (JObj jane) fifty_requests).1.2
    = OK {| id := lit "50";
            message :=
              lit "Request received. We'll email you with next steps." |}
  ∧ length (collection "unlockrequest"
              (post_api_unlock (ev := has_at) (JObj jane) fifty_requests).1.1)
    = 51%nat
  ∧ match (get_api_unlock (cfg := rejecting) None
             (post_api_unlock (ev := has_at) (JObj jane)
                fifty_requests).1.1).2 with
    | OK docs =>
        length docs = 50%nat
        ∧ filter (λ d, d !! "_id" = Some (VStr (lit "50"))) docs = []
    | _ => False
    end.
Proof.
  split.
  { unfold fifty_requests.
    generalize 50%nat. intros n. induction n as [|n IH];
      [exact store_wf_empty | by apply store_wf_create]. }
  split; [vm_compute; reflexivity |]. split; [vm_compute; reflexivity |].
  vm_compute. split; reflexivity.
Qed.

(** ** Mail *)

(** With no configured mail server and a port that [int] reads, the send is
    the no-op of the source: one line printed, nothing on the wire, nothing
    raised. *)
Lemma unconfigured_send_is_noop subject to_email html_body text_body env w p :
  smtp_configured env = false →
  py_int (default (lit "587") (environ env !! "SMTP_PORT")) = Some p →
  _send_email_smtp subject to_email html_body text_body env w
  = ({| stdout := stdout w ++ [lit "[email] SMTP not configured. Skipping send."];
        network := network w |}, inr tt).
Proof.
  unfold smtp_configured, _send_email_smtp. intros Hconf Hport.
  unfold mbind, Py_bind, getenv, getenv_default, int. rewrite Hport.
  unfold mret, Py_ret.
  destruct (truthy (environ env !! "SMTP_HOST")),
    (truthy (environ env !! "SMTP_USER")),
    (truthy (environ env !! "SMTP_PASS")); try discriminate; reflexivity.
Qed.

(** C3, at the input where it fails. No mail server is configured and
    [SMTP_PORT] is [abc]: the send reads the port before it looks whether
    mail is configured, so it raises [ValueError] where a no-op was meant;
    nothing goes on the wire, and nothing is printed. The submission itself
    is answered as usual; it is the background run that ends in the
    exception. *)
Theorem send_raises_on_unreadable_port (subject to_email html_body : str)
    (text_body : option str) (w : World) :
  smtp_configured bad_port = false
  ∧ _send_email_smtp subject to_email html_body text_body bad_port w
    = (w, inl (ValueError (lit "invalid literal for int() with base 10")))
  ∧ ∃ st' r tasks,
      post_api_unlock (ev := has_at) (JObj jane) empty_store
      = (st', OK r, tasks)
      ∧ run_background tasks bad_port w
        = (w, inl (ValueError (lit "invalid literal for int() with base 10"))).
Proof.
  split; [reflexivity |]. split; [reflexivity |].
  do 3 eexists. split; reflexivity.
Qed.

Section OptionalFields.
Context {ev : EmailValidator}.

Lemma Field_delete_ne {A} dflt (check : json → error_type + A) d key key' :
  key ≠ key' → Field dflt check (delete key d) key' = Field dflt check d key'.
Proof. intros Hne. unfold Field. by rewrite lookup_delete_ne. Qed.

Lemma Field_optional_empty d key :
  Field (Some None) optional_str (<[key := JStr []]> d) key = inr (Some []).
Proof. unfold Field. by rewrite lookup_insert_eq. Qed.

Lemma Field_optional_absent d key :
  Field (Some None) optional_str (delete key d) key = inr None.
Proof. unfold Field. by rewrite lookup_delete_eq. Qed.

(** An empty [region] and no [region] give the same notifications. *)
Lemma notifications_empty_region req doc_id :
  send_admin_notification (set_region (Some []) req) doc_id
  = send_admin_notification (set_region None req) doc_id
  ∧ send_customer_autoresponse (set_region (Some []) req) doc_id
    = send_customer_autoresponse (set_region None req) doc_id.
Proof. split; reflexivity. Qed.

(** An empty [notes] and no [notes] give the same notifications. *)
Lemma notifications_empty_notes req doc_id :
  send_admin_notification (set_notes (Some []) req) doc_id
  = send_admin_notification (set_notes None req) doc_id
  ∧ send_customer_autoresponse (set_notes (Some []) req) doc_id
    = send_customer_autoresponse (set_notes None req) doc_id.
Proof. split; reflexivity. Qed.

Lemma accepts_region_empty d req :
  accepts (delete "region" d) req →
  region req = None
  ∧ accepts (<["region" := JStr []]> d) (set_region (Some []) req).
Proof.
  unfold accepts, Field.
  rewrite lookup_delete_eq, lookup_insert_eq, !lookup_delete_ne,
    !lookup_insert_ne by done.
  cbn. intros (? & ? & ? & ? & [= <-] & ? & ? & ? & ?). by repeat split.
Qed.

Lemma accepts_notes_empty d req :
  accepts (delete "notes" d) req →
  notes req = None
  ∧ accepts (<["notes" := JStr []]> d) (set_notes (Some []) req).
Proof.
  unfold accepts, Field.
  rewrite lookup_delete_eq, lookup_insert_eq, !lookup_delete_ne,
    !lookup_insert_ne by done.
  cbn. intros (? & ? & ? & ? & ? & ? & ? & [= <-] & ?). by repeat split.
Qed.

Lemma field_errors_empty_optional d key :
  key = "region" ∨ key = "notes" →
  field_errors (<[key := JStr []]> d) = field_errors (delete key d).
Proof.
  intros [->| ->]; unfold field_errors, Field;
    rewrite lookup_delete_eq, lookup_insert_eq, !lookup_delete_ne,
      !lookup_insert_ne by done; reflexivity.
Qed.

Lemma fare_alike_intro R d1 d0 :
  field_errors d1 = field_errors d0 →
  (∀ req0, accepts d0 req0 → ∃ req1, accepts d1 req1 ∧ R req1 req0) →
  fare_alike R (validate (JObj d1)) (validate (JObj d0)).
Proof.
  intros Herr Hacc. unfold fare_alike.
  destruct (validate_cases d0) as [(req0 & -> & Hacc0 & Hnil0)|[-> Hne0]].
  - destruct (Hacc _ Hacc0) as (req1 & Hacc1 & HR).
    by rewrite (accepts_validate _ _ Hacc1).
  - destruct (validate_cases d1) as [(req1 & _ & _ & Hnil1)|[-> _]];
      congruence.
Qed.

(** C8, as amended. An empty string under [region] or [notes] is no
    validation error:
    the payload fares as it does without the key, refused with the same
    errors or accepted alike. The accepted request keeps the empty string,
    and both notifications read it as they read an absent value: they are
    the same as for the payload without the key. *)
Theorem empty_optional_as_absent (d : gmap string json) :
  fare_alike
    (λ req1 req0, region req0 = None ∧ req1 = set_region (Some []) req0
                  ∧ same_notifications req1 req0)
    (validate (JObj (<["region" := JStr []]> d)))
    (validate (JObj (delete "region" d)))
  ∧ fare_alike
      (λ req1 req0, notes req0 = None ∧ req1 = set_notes (Some []) req0
                    ∧ same_notifications req1 req0)
      (validate (JObj (<["notes" := JStr []]> d)))
      (validate (JObj (delete "notes" d))).
Proof.
  split; apply fare_alike_intro;
    try (apply field_errors_empty_optional; auto).
  - intros req0 [Hnone Hacc]%accepts_region_empty. eexists.
    split; [done |]. split; [done |]. split; [done |].
    intros doc_id. destruct req0; cbn in Hnone; subst.
    apply notifications_empty_region.
  - intros req0 [Hnone Hacc]%accepts_notes_empty. eexists.
    split; [done |]. split; [done |]. split; [done |].
    intros doc_id. destruct req0; cbn in Hnone; subst.
    apply notifications_empty_notes.
Qed.

End OptionalFields.

(** ** The background run *)

#[local] Instance extends_preorder : PreOrder extends.
Proof.
  split.
  - by intros w.
  - intros w1 w2 w3 [Ho1 Hn1] [Ho2 Hn2]. split; by etrans.
Qed.

Lemma grows_ret {A} (a : A) : grows (mret a).
Proof. by intros env w. Qed.

Lemma grows_raise {A} (e : exn) : grows (raise (A := A) e).
Proof. by intros env w. Qed.

Lemma grows_bind {A B} (m : Py A) (f : A → Py B) :
  grows m → (∀ a, grows (f a)) → grows (m ≫= f).
Proof.
  intros Hm Hf env w. unfold mbind, Py_bind. specialize (Hm env w).
  destruct (m env w) as [w1 [e|a]]; [done |].
  etrans; [exact Hm | apply Hf].
Qed.

Lemma grows_getenv key : grows (getenv key).
Proof. by intros env w. Qed.

Lemma grows_getenv_default key fallback : grows (getenv_default key fallback).
Proof. by intros env w. Qed.

Lemma grows_print line : grows (print line).
Proof. intros env w. split; cbn; [by apply prefix_app_r | done]. Qed.

Lemma grows_smtp op : grows (smtp op).
Proof. intros env w. split; cbn; [done | by apply prefix_app_r]. Qed.

Lemma grows_finally_quit {A} (body : Py A) :
  grows body → grows (finally_quit body).
Proof.
  intros Hbody env w. unfold finally_quit. specialize (Hbody env w).
  destruct (body env w) as [w1 r]. pose proof (grows_smtp Quit env w1) as Hq.
  destruct (smtp Quit env w1) as [w2 [e|[]]]; by etrans.
Qed.

Lemma grows_int s : grows (int s).
Proof. unfold int. destruct (py_int s); [apply grows_ret | apply grows_raise]. Qed.

Lemma grows_email step : grows (email_call step).
Proof. by intros env w. Qed.

Lemma grows_set_header name value : grows (set_header name value).
Proof.
  unfold set_header. destruct (_ <? _)%nat; [apply grows_raise |].
  apply grows_bind; [apply grows_email | intros _; apply grows_ret].
Qed.

Lemma grows_set_content text : grows (set_content text).
Proof. apply grows_email. Qed.

Lemma grows_add_alternative html : grows (add_alternative html).
Proof. apply grows_email. Qed.

Create HintDb grows.

#[local] Hint Resolve grows_ret grows_raise grows_getenv grows_getenv_default
  grows_print grows_smtp grows_int grows_set_header grows_set_content
  grows_add_alternative : grows.

Ltac grows_step :=
  first [ apply grows_bind; [|intros ?]
        | apply grows_finally_quit
        | solve [auto with grows] ].

Lemma grows_send_email subject to_email html_body text_body :
  grows (_send_email_smtp subject to_email html_body text_body).
Proof.
  unfold _send_email_smtp, with_SMTP. repeat grows_step.
  destruct (_ || _); repeat grows_step.
  destruct (if truthy text_body then text_body else None); cbn;
    auto with grows.
Qed.

Lemma grows_send_admin req doc_id : grows (send_admin_notification req doc_id).
Proof.
  unfold send_admin_notification. apply grows_bind; [auto with grows |].
  intros to_email. apply grows_send_email.
Qed.

Lemma grows_send_customer req doc_id :
  grows (send_customer_autoresponse req doc_id).
Proof.
  unfold send_customer_autoresponse. cbv zeta. apply grows_send_email.
Qed.

Section Notifications.
Context {ev : EmailValidator}.

Lemma post_ok_inv raw st st' r tasks :
  post_api_unlock raw st = (st', OK r, tasks) →
  ∃ req,
    validate raw = inr req
    ∧ tasks = [send_admin_notification req (id r);
               send_customer_autoresponse req (id r)].
Proof.
  unfold post_api_unlock. destruct (validate raw) as [errs|req]; [done |].
  unfold submit_unlock_request, add_task.
  destruct (create_document "unlockrequest" req st) as [st1 [e|doc_id]];
    [done |].
  intros [= <- <- <-]. by exists req.
Qed.

(** C2, as amended. The tasks of an answered submission are the two sends,
    the administrator's first, and the background run catches nothing. When
    the administrator send raises, the run ends in that exception, in the
    world the send left: the customer send is not started. When it returns,
    the customer send runs next and its outcome, an exception as well, is the
    outcome of the run; what the administrator send printed and sent stays
    in place. *)
Theorem notifications_in_sequence (raw : json) (st st' : Store)
    (r : UnlockResponse) (tasks : BackgroundTasks) (env : Env) (w : World) :
  post_api_unlock raw st = (st', OK r, tasks) →
  ∃ req,
    validate raw = inr req
    ∧ match send_admin_notification req (id r) env w with
      | (w1, inl e) => run_background tasks env w = (w1, inl e)
      | (w1, inr _) =>
          run_background tasks env w
          = send_customer_autoresponse req (id r) env w1
          ∧ extends w1 (run_background tasks env w).1
      end.
Proof.
  intros (req & Hv & ->)%post_ok_inv. exists req. split; [done |].
  cbn [run_background]. unfold mbind, Py_bind.
  destruct (send_admin_notification req (id r) env w) as [w1 [e|[]]];
    [done |].
  pose proof (grows_send_customer req (id r) env w1) as Hgrow.
  destruct (send_customer_autoresponse req (id r) env w1) as [w2 [e|[]]];
    done.
Qed.

End Notifications.

(** C2, as stated, fails. The mail server refuses the message to the
    administrator and would take the customer's: the background run of the
    submission ends in the exception of the administrator send, which
    nothing catches, and no message to the customer goes out, although the
    customer send on its own succeeds. *)
Lemma admin_failure_aborts_customer :
  ∃ st' r tasks,
    post_api_unlock (ev := has_at) (JObj jane) empty_store
    = (st', OK r, tasks)
    ∧ (∃ op, (run_background tasks refusing_admin silent).2
             = inl (SMTPException op))
    ∧ existsb (sent_to (lit "jane@example.com"))
        (network (run_background tasks refusing_admin silent).1) = false
    ∧ (send_customer_autoresponse jane_request (id r) refusing_admin silent).2
      = inr tt
    ∧ existsb (sent_to (lit "jane@example.com"))
        (network (send_customer_autoresponse jane_request (id r)
                    refusing_admin silent).1) = true.
Proof.
  do 3 eexists. split; [reflexivity |].
  split; [eexists; vm_compute; reflexivity |].
  split; [vm_compute; reflexivity |].
  split; vm_compute; reflexivity.
Qed.

Lemma notifications_in_sequence_witness :
  ∃ req,
    validate (ev := has_at) (JObj jane) = inr req
    ∧ match send_admin_notification req (lit "0") refusing_admin silent with
      | (w1, inl e) =>
          run_background
            [send_admin_notification jane_request (lit "0");
             send_customer_autoresponse jane_request (lit "0")]
            refusing_admin silent
          = (w1, inl e)
      | (w1, inr _) =>
          run_background
            [send_admin_notification jane_request (lit "0");
             send_customer_autoresponse jane_request (lit "0")]
            refusing_admin silent
          = send_customer_autoresponse req (lit "0") refusing_admin w1
          ∧ extends w1
              (run_background
                 [send_admin_notification jane_request (lit "0");
                  send_customer_autoresponse jane_request (lit "0")]
                 refusing_admin silent).1
      end.
Proof.
  apply (notifications_in_sequence (ev := has_at) (JObj jane) empty_store
           (create_document "unlockrequest" jane_request empty_store).1
           {| id := lit "0";
              message := lit "Request received. We'll email you with next steps." |}
           [send_admin_notification jane_request (lit "0");
            send_customer_autoresponse jane_request (lit "0")]
           refusing_admin silent).
  reflexivity.
Defined.

(** C8, as stated, fails. The empty [region] is accepted, but it is not
    read as an absent one: the accepted request keeps the empty string where
    the payload without the key gives [None], and so does the document made
    of it, so that the two submissions are listed differently. *)
Lemma empty_region_kept :
  validate (ev := has_at) (JObj (<["region" := JStr []]> jane))
  = inr (set_region (Some []) jane_request)
  ∧ validate (ev := has_at) (JObj (delete "region" jane)) = inr jane_request
  ∧ region (set_region (Some []) jane_request) = Some []
  ∧ region jane_request = None
  ∧ model_dump (set_region (Some []) jane_request) !! "region"
    = Some (VStr [])
  ∧ model_dump jane_request !! "region" = Some VNone
  ∧ (get_api_unlock (cfg := rejecting) None
       (post_api_unlock (ev := has_at) (JObj (<["region" := JStr []]> jane))
          empty_store).1.1).2
    ≠ (get_api_unlock (cfg := rejecting) None
         (post_api_unlock (ev := has_at) (JObj (delete "region" jane))
            empty_store).1.1).2.
Proof.
  repeat (split; [reflexivity |]). intros Heq.
  apply (f_equal (λ r, match r with
                       | OK (d :: _) => d !! "region"
                       | _ => None
                       end)) in Heq.
  vm_compute in Heq. discriminate.
Qed.

(** * Further properties *)

Import Handlers MoreExamples.

(** ** The schema *)

Section SchemaFacts.
Context {ev : EmailValidator}.

(** X1. A key that is no field of [UnlockRequest] does not matter: with or
    without it the payload is accepted as the same request or refused with
    the same errors. *)
Theorem unknown_keys_ignored (d : gmap string json) (k : string) (v : json) :
  k ∉ field_names →
  validate (JObj (<[k := v]> d)) = validate (JObj d).
Proof.
  intros Hk. unfold field_names in Hk.
  repeat match type of Hk with
         | _ ∉ _ :: _ => apply not_elem_of_cons in Hk as [? Hk]
         end.
  unfold validate, field_errors.
  by rewrite !Field_insert_ne by done.
Qed.

(** X2. For [region] and [notes], [null] is the same as leaving the key out:
    the two payloads validate to the same result. *)
Theorem null_is_omitted (d : gmap string json) (k : string) :
  k = "region" ∨ k = "notes" →
  validate (JObj (<[k := JNull]> d)) = validate (JObj (delete k d)).
Proof.
  intros [->| ->]; unfold validate, field_errors, Field;
    rewrite lookup_delete_eq, lookup_insert_eq, !lookup_delete_ne,
      !lookup_insert_ne by done; reflexivity.
Qed.

Lemma loc_errors_of_Field {A} dflt (check : json → error_type + A) d key :
  loc <$> errors_of (Field dflt check d key) `sublist_of` [key].
Proof.
  unfold Field. destruct (d !! key) as [v|].
  - destruct (check v); cbn; [done | apply sublist_nil_l].
  - destruct dflt; cbn; [apply sublist_nil_l | done].
Qed.

(** X3. The errors of a payload come in the order of the fields, at most one
    for a field and none for another key; the payload is accepted when there
    is none, and refused with exactly these errors otherwise. *)
Theorem errors_in_field_order (d : gmap string json) :
  loc <$> field_errors d `sublist_of` field_names
  ∧ match validate (JObj d) with
    | inr _ => field_errors d = []
    | inl errors => errors = field_errors d ∧ errors ≠ []
    end.
Proof.
  split.
  - unfold field_errors, field_names. rewrite !fmap_app.
    repeat (apply (sublist_app _ [_]); [apply loc_errors_of_Field |]).
    apply loc_errors_of_Field.
  - destruct (validate_cases d) as [(req & -> & _ & Hnil)|[-> Hne]]; done.
Qed.

Lemma str_type_bounded_inr v s :
  str_type (Some 8%nat) (Some 20%nat) v = inr s
  ↔ v = JStr s ∧ (8 ≤ length s ≤ 20)%nat.
Proof.
  destruct v as [| | |t| |]; try (split; [discriminate | by intros [[=] _]]).
  rewrite str_type_imei.
  destruct (Nat.ltb_spec (length t) 8);
    [split; [discriminate | intros [[= ->] ?]; lia] |].
  destruct (Nat.ltb_spec 20 (length t));
    [split; [discriminate | intros [[= ->] ?]; lia] |].
  split; [intros [= ->]; split; [done | lia] | by intros [[= ->] _]].
Qed.

Lemma Field_optional_inr d key r :
  Field (Some None) optional_str d key = inr r ↔ optional_is (d !! key) r.
Proof.
  unfold Field, optional_is.
  destruct (d !! key) as [[| | |s| |]|], r as [t|]; cbn; split; intros Hx;
    try discriminate; try done; try (by left); try (by right);
    try (by destruct Hx as [Hx|Hx]; discriminate);
    try (by injection Hx as ->).
Qed.

Lemma Field_email_inr d e :
  Field None email_str d "email" = inr e
  ↔ ∃ s, d !! "email" = Some (JStr s) ∧ validate_email s = Some e.
Proof.
  rewrite Field_required_inr. split.
  - intros (v & Hv & Hc). destruct v as [| | |s| |]; try discriminate.
    exists s. split; [done |]. unfold email_str in Hc.
    destruct (validate_email s); congruence.
  - intros (s & Hs & He). exists (JStr s). split; [done |].
    unfold email_str. by rewrite He.
Qed.

Lemma Field_status_inr d s :
  Field (Some new) literal_status d "status" = inr s
  ↔ (d !! "status" = None ∧ s = new)
    ∨ d !! "status" = Some (JStr (status_str s)).
Proof.
  unfold Field. destruct (d !! "status") as [v|]; split.
  - destruct (literal_status v) as [|s'] eqn:Hl; [discriminate |].
    intros [= ->]. right. by rewrite (literal_status_inr_inv _ _ Hl).
  - intros [[[=] _]|[= ->]]. by rewrite literal_status_inr.
  - intros [= <-]. by left.
  - intros [[_ ->]|[=]]. done.
Qed.

(** X4. What it takes to be accepted. A payload validates to [req] exactly
    when it gives [brand], [model], [issue] and [name] as the strings of
    [req], [imei] as a string of 8 to 20 characters, under [email] a string
    that the address check turns into the address of [req], under [region]
    and [notes] the string of [req] or, for [None], [null] or nothing, and
    under [status] the status of [req] or, for [new], nothing. *)
Theorem acceptance_criterion (d : gmap string json) (req : UnlockRequest) :
  validate (JObj d) = inr req
  ↔ d !! "brand" = Some (JStr (brand req))
    ∧ d !! "model" = Some (JStr (model req))
    ∧ d !! "issue" = Some (JStr (issue req))
    ∧ (d !! "imei" = Some (JStr (imei req))
       ∧ (8 ≤ length (imei req) ≤ 20)%nat)
    ∧ optional_is (d !! "region") (region req)
    ∧ d !! "name" = Some (JStr (name req))
    ∧ (∃ s, d !! "email" = Some (JStr s)
            ∧ validate_email s = Some (email req))
    ∧ optional_is (d !! "notes") (notes req)
    ∧ ((d !! "status" = None ∧ status req = new)
       ∨ d !! "status" = Some (JStr (status_str (status req)))).
Proof.
  assert (∀ key s,
            Field None (str_type None None) d key = inr s
            ↔ d !! key = Some (JStr s)) as Hplain.
  { intros key s. rewrite Field_required_inr. split.
    - by intros (v & -> & ->%str_type_plain_inr).
    - intros Hs. exists (JStr s). by rewrite str_type_plain_inr. }
  assert (Field None (str_type (Some 8%nat) (Some 20%nat)) d "imei"
          = inr (imei req)
          ↔ d !! "imei" = Some (JStr (imei req))
            ∧ (8 ≤ length (imei req) ≤ 20)%nat) as Himei.
  { rewrite Field_required_inr. split.
    - by intros (v & -> & [-> ?]%str_type_bounded_inr).
    - intros [Hs ?]. exists (JStr (imei req)).
      by rewrite str_type_bounded_inr. }
  rewrite <- Himei, <- Field_status_inr, <- Field_email_inr,
    <- !Field_optional_inr, <- !Hplain.
  split.
  - by intros (d' & [= <-] & Hacc)%validate_inr_obj.
  - apply accepts_validate.
Qed.

End SchemaFacts.

Lemma unknown_keys_ignored_witness :
  validate (ev := has_at) (JObj (<["colour" := JStr (lit "black")]> jane))
  = inr jane_request.
Proof.
  rewrite (unknown_keys_ignored (ev := has_at) jane "colour").
  - reflexivity.
  - unfold field_names. intros Hin.
    repeat (apply elem_of_cons in Hin as [[=]|Hin]).
    by apply elem_of_nil in Hin.
Defined.

Lemma null_is_omitted_witness :
  validate (ev := has_at) (JObj (<["region" := JNull]> jane))
  = inr jane_request.
Proof.
  rewrite (null_is_omitted (ev := has_at) jane "region"); [reflexivity |].
  by left.
Defined.

(** ** One send *)

(** What [_send_email_smtp] does, case by case: the port is read first,
    then the configuration is looked at, then the message is built, and
    only then the server is talked to, one step after the other. *)
Lemma send_email_cases subject to_email html_body text_body env w :
  let msg :=
    SendMessage subject (sender env) to_email
      (if truthy text_body then text_body else None) html_body in
  let host := default [] (environ env !! "SMTP_HOST") in
  let login :=
    Login (default [] (environ env !! "SMTP_USER"))
      (default [] (environ env !! "SMTP_PASS")) in
  let closing (e : exn) : exn + unit :=
    if smtp_ok env Quit then inl e else inl (SMTPException Quit) in
  let r := _send_email_smtp subject to_email html_body text_body env w in
  match smtp_port env with
  | None =>
      r = (w, inl (ValueError (lit "invalid literal for int() with base 10")))
  | Some port =>
      if negb (smtp_configured env) then
        r = ({| stdout :=
                  stdout w ++ [lit "[email] SMTP not configured. Skipping send."];
                network := network w |}, inr tt)
      else
        match build_error env subject (sender env) to_email text_body
                html_body with
        | Some e => r = (w, inl e)
        | None =>
            if negb (smtp_ok env (Connect host port)) then
              r = (on_wire w [Connect host port],
                   inl (SMTPException (Connect host port)))
            else if negb (smtp_ok env StartTLS) then
              r = (on_wire w [Connect host port; StartTLS; Quit],
                   closing (SMTPException StartTLS))
            else if negb (smtp_ok env login) then
              r = (on_wire w [Connect host port; StartTLS; login; Quit],
                   closing (SMTPException login))
            else if negb (smtp_ok env msg) then
              r = (on_wire w [Connect host port; StartTLS; login; msg; Quit],
                   closing (SMTPException msg))
            else
              r = ({| stdout :=
                        stdout w ++ [lit "[email] Sent to " ++ to_email];
                      network := network w ++ session env port msg |},
                   if smtp_ok env Quit then inr tt
                   else inl (SMTPException Quit))
        end
  end.
Proof.
  cbv zeta.
  unfold _send_email_smtp, smtp_port, smtp_configured, sender, build_error,
    header_error, header_ok, session, on_wire.
  unfold mbind, Py_bind, getenv, getenv_default, int.
  destruct (py_int (default (lit "587") (environ env !! "SMTP_PORT")))
    as [port|]; [|reflexivity].
  unfold mret, Py_ret.
  destruct (truthy (environ env !! "SMTP_HOST")),
    (truthy (environ env !! "SMTP_USER")),
    (truthy (environ env !! "SMTP_PASS")); try reflexivity.
  cbn [negb orb andb].
  unfold set_header, set_content, add_alternative, email_call, raise, mbind,
    Py_bind, mret, Py_ret.
  destruct (1 <? count_lines false subject)%nat; [reflexivity |].
  cbn [negb or_else].
  destruct (email_error env (SetHeader "Subject" subject)); [reflexivity |].
  cbn [or_else].
  destruct (1 <? count_lines false _)%nat; [reflexivity |].
  cbn [negb or_else].
  destruct (email_error env (SetHeader "From" _)); [reflexivity |].
  cbn [or_else].
  destruct (1 <? count_lines false to_email)%nat; [reflexivity |].
  cbn [negb or_else].
  destruct (email_error env (SetHeader "To" to_email)); [reflexivity |].
  cbn [or_else].
  destruct (if truthy text_body then text_body else None) as [text|];
    cbn [from_option or_else];
    [destruct (email_error env (SetContent text)); [reflexivity |] |];
    cbn [or_else].
  all: destruct (email_error env (AddAlternative html_body));
    [reflexivity |].
  all: unfold with_SMTP, finally_quit, mbind, Py_bind, smtp, print; cbn.
  all: destruct (smtp_ok env (Connect _ _)); [|reflexivity]; cbn.
  all: destruct (smtp_ok env StartTLS); cbn;
    [|rewrite <- !app_assoc; destruct (smtp_ok env Quit); reflexivity].
  all: destruct (smtp_ok env (Login _ _)); cbn;
    [|rewrite <- !app_assoc; destruct (smtp_ok env Quit); reflexivity].
  all: destruct (smtp_ok env (SendMessage _ _ _ _ _)); cbn;
    rewrite <- !app_assoc; destruct (smtp_ok env Quit); reflexivity.
Qed.

(** What one send can put on the wire. *)
Lemma send_email_wire subject to_email html_body text_body env w :
  let msg :=
    SendMessage subject (sender env) to_email
      (if truthy text_body then text_body else None) html_body in
  let host := default [] (environ env !! "SMTP_HOST") in
  let login :=
    Login (default [] (environ env !! "SMTP_USER"))
      (default [] (environ env !! "SMTP_PASS")) in
  ∃ ops,
    network (_send_email_smtp subject to_email html_body text_body env w).1
    = network w ++ ops
    ∧ (ops = []
       ∨ ∃ port,
           smtp_port env = Some port
           ∧ smtp_configured env = true
           ∧ ((ops = [Connect host port]
               ∧ smtp_ok env (Connect host port) = false)
              ∨ (smtp_ok env (Connect host port) = true
                 ∧ ((ops = [Connect host port; StartTLS; Quit]
                     ∧ smtp_ok env StartTLS = false)
                    ∨ (smtp_ok env StartTLS = true
                       ∧ ((ops = [Connect host port; StartTLS; login; Quit]
                           ∧ smtp_ok env login = false)
                          ∨ (smtp_ok env login = true
                             ∧ ops = session env port msg))))))).
Proof.
  cbv zeta.
  pose proof (send_email_cases subject to_email html_body text_body env w)
    as Hcases. cbv zeta in Hcases.
  destruct (smtp_port env) as [port|];
    [|rewrite Hcases; exists []; by rewrite app_nil_r; auto].
  destruct (smtp_configured env); cbn [negb] in Hcases;
    [|rewrite Hcases; exists []; by rewrite app_nil_r; auto].
  destruct (build_error env subject (sender env) to_email text_body
              html_body);
    [rewrite Hcases; exists []; by rewrite app_nil_r; auto |].
  destruct (smtp_ok env (Connect _ _)) eqn:Hc; cbn [negb] in Hcases.
  2:{ rewrite Hcases. eexists. split; [reflexivity |].
      right. exists port. do 2 (split; [done |]). by left. }
  destruct (smtp_ok env StartTLS) eqn:Ht; cbn [negb] in Hcases.
  2:{ rewrite Hcases. eexists. split; [reflexivity |].
      right. exists port. do 2 (split; [done |]). right. split; [done |].
      by left. }
  destruct (smtp_ok env (Login _ _)) eqn:Hl; cbn [negb] in Hcases.
  2:{ rewrite Hcases. eexists. split; [reflexivity |].
      right. exists port. do 2 (split; [done |]). right. split; [done |].
      right. split; [done |]. by left. }
  destruct (smtp_ok env (SendMessage _ _ _ _ _)); cbn [negb] in Hcases;
    rewrite Hcases.
  all: eexists; split; [reflexivity |].
  all: right; exists port; do 2 (split; [done |]); right; split; [done |].
  all: right; split; [done |]; right; split; [done | reflexivity].
Qed.

Ltac in_wire H :=
  repeat (apply elem_of_cons in H as [H|H]);
  try (by apply elem_of_nil in H); try discriminate.

(** X5. The order of the SMTP dialogue. What a send puts on the wire comes
    after what was there. The login goes out only as the third step, after a
    connection and a STARTTLS that the server accepted; a message goes out
    only in a whole session, after a login that the server accepted, and
    then only one; every connection that the server accepted is closed with
    QUIT. *)
Theorem smtp_dialogue_order (subject to_email html_body : str)
    (text_body : option str) (env : Env) (w : World) :
  ∃ ops,
    network (_send_email_smtp subject to_email html_body text_body env w).1
    = network w ++ ops
    ∧ (∀ u p, Login u p ∈ ops →
         ∃ h port rest,
           ops = Connect h port :: StartTLS :: Login u p :: rest
           ∧ smtp_ok env (Connect h port) = true
           ∧ smtp_ok env StartTLS = true)
    ∧ (∀ m, is_message m = true → m ∈ ops →
         ∃ h port u p,
           ops = [Connect h port; StartTLS; Login u p; m; Quit]
           ∧ smtp_ok env (Login u p) = true)
    ∧ (∀ h port, Connect h port ∈ ops →
         smtp_ok env (Connect h port) = true → last ops = Some Quit).
Proof.
  destruct (send_email_wire subject to_email html_body text_body env w)
    as (ops & Hnet & Hshape). cbv zeta in Hshape.
  exists ops. split; [exact Hnet |]. unfold session in Hshape.
  destruct Hshape
    as [->|(port & _ & _ &
            [[-> Hc]|[Hc [[-> Ht]|[Ht [[-> Hl]|[Hl ->]]]]]])].
  all: split; [intros u p Hin; in_wire Hin; simplify_eq; eauto 10 |].
  all: split;
    [intros m Hm Hin; in_wire Hin; subst; cbn in Hm; try discriminate;
     eauto 10 |].
  all: intros h port' Hin Hok; in_wire Hin; simplify_eq; try done; congruence.
Qed.

(** X6. A send that returns has skipped or delivered. When
    [_send_email_smtp] returns without an exception, either no mail server
    is configured, and it printed the line that says so and sent nothing, or
    one is, and a whole session went over the wire in which the server
    accepted the message, and the line that names the recipient was
    printed. *)
Theorem normal_return_is_skip_or_delivery (subject to_email html_body : str)
    (text_body : option str) (env : Env) (w : World) :
  (_send_email_smtp subject to_email html_body text_body env w).2 = inr tt →
  (smtp_configured env = false
   ∧ (_send_email_smtp subject to_email html_body text_body env w).1
     = {| stdout :=
            stdout w ++ [lit "[email] SMTP not configured. Skipping send."];
          network := network w |})
  ∨ (smtp_configured env = true
     ∧ ∃ port,
         smtp_port env = Some port
         ∧ smtp_ok env
             (SendMessage subject (sender env) to_email
                (if truthy text_body then text_body else None) html_body)
           = true
         ∧ (_send_email_smtp subject to_email html_body text_body env w).1
           = {| stdout := stdout w ++ [lit "[email] Sent to " ++ to_email];
                network :=
                  network w
                  ++ session env port
                       (SendMessage subject (sender env) to_email
                          (if truthy text_body then text_body else None)
                          html_body) |}).
Proof.
  pose proof (send_email_cases subject to_email html_body text_body env w)
    as Hcases. cbv zeta in Hcases.
  destruct (smtp_port env) as [port|]; [|by rewrite Hcases].
  destruct (smtp_configured env); cbn [negb] in Hcases;
    [|rewrite Hcases; by left].
  destruct (build_error env subject (sender env) to_email text_body
              html_body); [by rewrite Hcases |].
  destruct (smtp_ok env (Connect _ _)); cbn [negb] in Hcases;
    [|by rewrite Hcases].
  destruct (smtp_ok env StartTLS); cbn [negb] in Hcases;
    [|rewrite Hcases; by destruct (smtp_ok env Quit)].
  destruct (smtp_ok env (Login _ _)); cbn [negb] in Hcases;
    [|rewrite Hcases; by destruct (smtp_ok env Quit)].
  destruct (smtp_ok env (SendMessage _ _ _ _ _)); cbn [negb] in Hcases;
    [|rewrite Hcases; by destruct (smtp_ok env Quit)].
  rewrite Hcases. intros _. right. split; [done |]. by exists port.
Qed.

Lemma build_error_multiline env subject from to text_body html :
  header_ok subject && header_ok from && header_ok to = false →
  ∃ e,
    build_error env subject from to text_body html = Some e
    ∧ (header_ok subject = false →
       e = ValueError (lit "Header values may not contain linefeed or carriage return characters")).
Proof.
  unfold build_error, header_error. intros Hhdr.
  destruct (header_ok subject); cbn [or_else]; [|by eexists].
  destruct (email_error env (SetHeader "Subject" subject)) as [e|];
    cbn [or_else]; [by exists e |].
  destruct (header_ok from); cbn [or_else]; [|by eexists].
  destruct (email_error env (SetHeader "From" from)) as [e|];
    cbn [or_else]; [by exists e |].
  destruct (header_ok to); cbn [or_else]; [done | by eexists].
Qed.

(** X7. A header of more than one line stops the send before the server is
    contacted. With a mail server configured and a readable port, a subject,
    sender or recipient that runs over more than one line makes the send
    raise while the message is built; nothing is printed and nothing goes on
    the wire. When it is the subject, the header set first, the exception is
    the [ValueError] of the check for lines. *)
Theorem multiline_header_refused (subject to_email html_body : str)
    (text_body : option str) (env : Env) (w : World) (port : Z) :
  smtp_port env = Some port →
  smtp_configured env = true →
  header_ok subject && header_ok (sender env) && header_ok to_email = false →
  ∃ e,
    _send_email_smtp subject to_email html_body text_body env w = (w, inl e)
    ∧ (header_ok subject = false →
       e = ValueError (lit "Header values may not contain linefeed or carriage return characters")).
Proof.
  intros Hport Hconf Hhdr.
  pose proof (send_email_cases subject to_email html_body text_body env w)
    as Hcases. cbv zeta in Hcases.
  rewrite Hport, Hconf in Hcases. cbn [negb] in Hcases.
  destruct (build_error_multiline env subject (sender env) to_email text_body
              html_body Hhdr) as (e & He & Hsubject).
  rewrite He in Hcases. by exists e.
Qed.

Lemma configured_sender env :
  smtp_configured env = true →
  sender env
  = default (default [] (environ env !! "SMTP_USER"))
      (environ env !! "FROM_EMAIL").
Proof.
  unfold smtp_configured, sender.
  destruct (environ env !! "SMTP_USER") as [[|c u]|]; cbn;
    rewrite ?andb_false_r; done.
Qed.

(** The message a send puts on the wire, if it does: it is as the send was
    given it, and its sender is [FROM_EMAIL] or, when that is not set,
    [SMTP_USER]. *)
Lemma message_parts subject to_email html_body text_body env w :
  ∃ ops,
    network (_send_email_smtp subject to_email html_body text_body env w).1
    = network w ++ ops
    ∧ ∀ s f t c h,
        SendMessage s f t c h ∈ ops →
        s = subject ∧ t = to_email ∧ h = html_body
        ∧ c = (if truthy text_body then text_body else None)
        ∧ f = default (default [] (environ env !! "SMTP_USER"))
                (environ env !! "FROM_EMAIL").
Proof.
  destruct (send_email_wire subject to_email html_body text_body env w)
    as (ops & Hnet & Hshape). cbv zeta in Hshape.
  exists ops. split; [exact Hnet |]. unfold session in Hshape.
  destruct Hshape
    as [->|(port & _ & Hconf &
            [[-> Hc]|[Hc [[-> Ht]|[Ht [[-> Hl]|[Hl ->]]]]]])].
  all: intros s f t c h Hin; in_wire Hin.
  injection Hin as -> -> -> -> ->. by rewrite (configured_sender _ Hconf).
Qed.

(** ** The two notifications *)

(** The administrator's notification is one send, to the administrator's
    address, with a text part. *)
Lemma send_admin_as_send req doc_id :
  ∃ html text,
    truthy (Some text) = true
    ∧ ∀ env w,
        send_admin_notification req doc_id env w
        = _send_email_smtp (admin_subject req doc_id) (admin_address env)
            html (Some text) env w.
Proof.
  unfold send_admin_notification. cbv zeta.
  do 2 eexists. split; [|intros env w; reflexivity]. reflexivity.
Qed.

(** The customer's acknowledgment is one send, to the customer's address,
    with a text part. *)
Lemma send_customer_as_send req doc_id :
  ∃ html text,
    truthy (Some text) = true
    ∧ ∀ env w,
        send_customer_autoresponse req doc_id env w
        = _send_email_smtp (lit "We received your unlock request")
            (email req) html (Some text) env w.
Proof.
  unfold send_customer_autoresponse. cbv zeta.
  do 2 eexists. split; [|intros env w; reflexivity]. reflexivity.
Qed.

(** X8. Who gets which notification, and from whom. A message that the
    administrator's notification puts on the wire goes to [ADMIN_EMAIL], or
    to the address of the source when that is not set, under the subject
    that names brand, model and reference; one that the customer's
    acknowledgment puts on the wire goes to the address of the request under
    the fixed subject. Both carry a text part next to the HTML, and both
    have as sender the value of [FROM_EMAIL] or, when that is not set, of
    [SMTP_USER]: the address the source falls back to for a missing user is
    never the sender of a message. *)
Theorem notification_recipients (req : UnlockRequest) (doc_id : str)
    (env : Env) (w : World) :
  (∃ ops,
     network (send_admin_notification req doc_id env w).1 = network w ++ ops
     ∧ ∀ s f t c h,
         SendMessage s f t c h ∈ ops →
         s = admin_subject req doc_id ∧ t = admin_address env
         ∧ f = default (default [] (environ env !! "SMTP_USER"))
                 (environ env !! "FROM_EMAIL")
         ∧ ∃ text, c = Some text ∧ text ≠ [])
  ∧ (∃ ops,
       network (send_customer_autoresponse req doc_id env w).1
       = network w ++ ops
       ∧ ∀ s f t c h,
           SendMessage s f t c h ∈ ops →
           s = lit "We received your unlock request" ∧ t = email req
           ∧ f = default (default [] (environ env !! "SMTP_USER"))
                   (environ env !! "FROM_EMAIL")
           ∧ ∃ text, c = Some text ∧ text ≠ []).
Proof.
  split.
  - destruct (send_admin_as_send req doc_id) as (html & text & Htext & ->).
    destruct (message_parts (admin_subject req doc_id) (admin_address env)
                html (Some text) env w) as (ops & Hnet & Hmsg).
    exists ops. split; [exact Hnet |]. intros s f t c h Hin.
    destruct (Hmsg _ _ _ _ _ Hin) as (-> & -> & _ & -> & ->).
    do 3 (split; [done |]). exists text. rewrite Htext.
    split; [done |]. by destruct text.
  - destruct (send_customer_as_send req doc_id) as (html & text & Htext & ->).
    destruct (message_parts (lit "We received your unlock request")
                (email req) html (Some text) env w) as (ops & Hnet & Hmsg).
    exists ops. split; [exact Hnet |]. intros s f t c h Hin.
    destruct (Hmsg _ _ _ _ _ Hin) as (-> & -> & _ & -> & ->).
    do 3 (split; [done |]). exists text. rewrite Htext.
    split; [done |]. by destruct text.
Qed.

(** ** What the notifications say *)

Lemma contains_here (x rest : str) : contains x (x ++ rest).
Proof. by exists [], rest. Qed.

Lemma contains_later (x piece rest : str) :
  contains x rest → contains x (piece ++ rest).
Proof.
  intros (before & after & ->). exists (piece ++ before), after.
  by rewrite <- app_assoc.
Qed.

Ltac find_quote :=
  cbn [concat];
  repeat first [ apply contains_here | apply contains_later ].

Ltac all_quoted :=
  repeat (apply Forall_cons; split; [split; find_quote |]);
  apply Forall_nil_2.

(** X9. The notifications quote the request. A message that the
    administrator's notification puts on the wire has, in its HTML and in
    its text, the reference and every field of the request: brand, model,
    issue, IMEI, name, email and status as they are, region and notes as
    they are or a dash when missing or empty. A message that the customer's
    acknowledgment puts on the wire has in both the customer's name, the
    reference, brand, model, issue, IMEI and the region or a dash. *)
Theorem notifications_quote_the_request (req : UnlockRequest) (doc_id : str)
    (env : Env) (w : World) :
  (∃ ops,
     network (send_admin_notification req doc_id env w).1 = network w ++ ops
     ∧ ∀ s f t c h,
         SendMessage s f t c h ∈ ops →
         ∃ text,
           c = Some text
           ∧ Forall (λ x, contains x h ∧ contains x text)
               (admin_quotes req doc_id))
  ∧ (∃ ops,
       network (send_customer_autoresponse req doc_id env w).1
       = network w ++ ops
       ∧ ∀ s f t c h,
           SendMessage s f t c h ∈ ops →
           ∃ text,
             c = Some text
             ∧ Forall (λ x, contains x h ∧ contains x text)
                 (customer_quotes req doc_id)).
Proof.
  split.
  - assert (∃ html text,
              truthy (Some text) = true
              ∧ Forall (λ x, contains x html ∧ contains x text)
                  (admin_quotes req doc_id)
              ∧ ∀ env w,
                  send_admin_notification req doc_id env w
                  = _send_email_smtp (admin_subject req doc_id)
                      (admin_address env) html (Some text) env w)
      as (html & text & Htext & Hquotes & ->).
    { unfold send_admin_notification. cbv zeta. do 2 eexists.
      split; [|split; [|intros env' w'; reflexivity]]; [reflexivity |].
      unfold admin_quotes. all_quoted. }
    destruct (message_parts (admin_subject req doc_id) (admin_address env)
                html (Some text) env w) as (ops & Hnet & Hmsg).
    exists ops. split; [exact Hnet |]. intros s f t c h Hin.
    destruct (Hmsg _ _ _ _ _ Hin) as (_ & _ & -> & -> & _).
    exists text. by rewrite Htext.
  - assert (∃ html text,
              truthy (Some text) = true
              ∧ Forall (λ x, contains x html ∧ contains x text)
                  (customer_quotes req doc_id)
              ∧ ∀ env w,
                  send_customer_autoresponse req doc_id env w
                  = _send_email_smtp (lit "We received your unlock request")
                      (email req) html (Some text) env w)
      as (html & text & Htext & Hquotes & ->).
    { unfold send_customer_autoresponse. cbv zeta. do 2 eexists.
      split; [|split; [|intros env' w'; reflexivity]]; [reflexivity |].
      unfold customer_quotes. all_quoted. }
    destruct (message_parts (lit "We received your unlock request")
                (email req) html (Some text) env w) as (ops & Hnet & Hmsg).
    exists ops. split; [exact Hnet |]. intros s f t c h Hin.
    destruct (Hmsg _ _ _ _ _ Hin) as (_ & _ & -> & -> & _).
    exists text. by rewrite Htext.
Qed.

(** ** A submission and its background run *)

Lemma submit_unlock_request_is_with :
  submit_unlock_request = submit_unlock_request_with create_document.
Proof. reflexivity. Qed.

Lemma list_unlock_requests_is_with {cfg : StoreConfig} :
  list_unlock_requests = list_unlock_requests_with get_documents.
Proof. reflexivity. Qed.

Lemma submit_with_tasks create payload st st' r tasks :
  submit_unlock_request_with create payload [] st = (st', inr r, tasks) →
  tasks = [send_admin_notification payload (id r);
           send_customer_autoresponse payload (id r)].
Proof.
  unfold submit_unlock_request_with, add_task.
  destruct (create "unlockrequest" payload st) as [st1 [e|doc_id]];
    [done |].
  by intros [= <- <- <-].
Qed.

(** X10. Mail that is not configured costs a submission nothing. Whatever
    the store, when a submission is answered and no mail server is
    configured (with [SMTP_PORT] unset or a number), the background run
    returns without an exception: each of the two notifications prints the
    line that it skips the send, and nothing goes on the wire. *)
Theorem unconfigured_mail_skips_both
    (create : string → UnlockRequest → Db str) (payload : UnlockRequest)
    (st st' : Store) (r : UnlockResponse) (tasks : BackgroundTasks)
    (env : Env) (w : World) (port : Z) :
  submit_unlock_request_with create payload [] st = (st', inr r, tasks) →
  smtp_configured env = false →
  smtp_port env = Some port →
  run_background tasks env w
  = ({| stdout :=
          stdout w ++ [lit "[email] SMTP not configured. Skipping send.";
                       lit "[email] SMTP not configured. Skipping send."];
        network := network w |}, inr tt).
Proof.
  intros ->%submit_with_tasks Hconf Hport.
  destruct (send_admin_as_send payload (id r)) as (h1 & t1 & _ & Hadmin).
  destruct (send_customer_as_send payload (id r)) as (h2 & t2 & _ & Hcust).
  cbn [run_background]. unfold mbind, Py_bind.
  rewrite Hadmin, (unconfigured_send_is_noop _ _ _ _ _ _ port Hconf Hport).
  rewrite Hcust, (unconfigured_send_is_noop _ _ _ _ _ _ port Hconf Hport).
  cbn. by rewrite <- app_assoc.
Qed.

(** The administrator's notification, with its bodies spelled out. *)
Lemma send_admin_spelled_out req doc_id env w :
  send_admin_notification req doc_id env w
  = _send_email_smtp (admin_subject req doc_id) (admin_address env)
      (admin_html req doc_id) (Some (admin_text req doc_id)) env w.
Proof. reflexivity. Qed.

(** The customer's acknowledgment, with its bodies spelled out. *)
Lemma send_customer_spelled_out req doc_id env w :
  send_customer_autoresponse req doc_id env w
  = _send_email_smtp (lit "We received your unlock request") (email req)
      (customer_html req doc_id) (Some (customer_text req doc_id)) env w.
Proof. reflexivity. Qed.

(** With a configured server that takes every step and a message that is
    built without an exception, a send is one whole session. *)
Lemma send_email_delivers subject to_email html_body text_body env w port :
  smtp_port env = Some port →
  smtp_configured env = true →
  build_error env subject (sender env) to_email text_body html_body = None →
  (∀ op, smtp_ok env op = true) →
  _send_email_smtp subject to_email html_body text_body env w
  = ({| stdout := stdout w ++ [lit "[email] Sent to " ++ to_email];
        network :=
          network w
          ++ session env port
               (SendMessage subject (sender env) to_email
                  (if truthy text_body then text_body else None)
                  html_body) |}, inr tt).
Proof.
  intros Hport Hconf Hbuild Hok.
  pose proof (send_email_cases subject to_email html_body text_body env w)
    as Hcases. cbv zeta in Hcases.
  by rewrite Hport, Hconf, Hbuild, !Hok in Hcases.
Qed.

(** X11. Both notifications are delivered, the administrator's first.
    Whatever the store, when a submission is answered, a mail server is
    configured with a port that [int] reads and takes every step, and the
    [email] package builds both messages without an exception (every header
    of one line and parsed, both bodies encoded), the background run returns
    without an exception after two whole sessions: the first carries the
    message to the administrator, the second the message to the customer,
    and the two lines that name the recipients are printed in that order. *)
Theorem both_notifications_delivered
    (create : string → UnlockRequest → Db str) (payload : UnlockRequest)
    (st st' : Store) (r : UnlockResponse) (tasks : BackgroundTasks)
    (env : Env) (w : World) (port : Z) :
  submit_unlock_request_with create payload [] st = (st', inr r, tasks) →
  smtp_port env = Some port →
  smtp_configured env = true →
  (∀ op, smtp_ok env op = true) →
  build_error env (admin_subject payload (id r)) (sender env)
    (admin_address env) (Some (admin_text payload (id r)))
    (admin_html payload (id r)) = None →
  build_error env (lit "We received your unlock request") (sender env)
    (email payload) (Some (customer_text payload (id r)))
    (customer_html payload (id r)) = None →
  run_background tasks env w
  = ({| stdout :=
          stdout w
          ++ [lit "[email] Sent to " ++ admin_address env;
              lit "[email] Sent to " ++ email payload];
        network :=
          network w
          ++ session env port
               (SendMessage (admin_subject payload (id r)) (sender env)
                  (admin_address env) (Some (admin_text payload (id r)))
                  (admin_html payload (id r)))
          ++ session env port
               (SendMessage (lit "We received your unlock request")
                  (sender env) (email payload)
                  (Some (customer_text payload (id r)))
                  (customer_html payload (id r))) |},
     inr tt).
Proof.
  intros ->%submit_with_tasks Hport Hconf Hok Hadmin Hcustomer.
  cbn [run_background]. unfold mbind, Py_bind.
  rewrite send_admin_spelled_out,
    (send_email_delivers _ _ _ _ _ _ port Hport Hconf Hadmin Hok).
  rewrite send_customer_spelled_out,
    (send_email_delivers _ _ _ _ _ _ port Hport Hconf Hcustomer Hok).
  cbn [stdout network mret Py_ret]. by rewrite <- !app_assoc.
Qed.

(** ** The listing *)

(** X12. The listing hands on what the store returns, identifiers as
    strings. Whatever the store, when it returns documents the listing
    returns as many, in the same order; each has under [_id] the string of
    what the stored document has there, if it has anything, and under every
    other key what the stored document has. A document with no [_id], or
    with a string there, is returned as it is. *)
Theorem listing_stringifies_ids
    (get : string → Z → Db (list (gmap string value))) (limit : Z)
    (st st' : Store) (stored : list (gmap string value)) :
  get "unlockrequest" limit st = (st', inr stored) →
  ∃ docs,
    list_unlock_requests_with get limit st = (st', inr docs)
    ∧ length docs = length stored
    ∧ ∀ i d,
        stored !! i = Some d →
        ∃ d',
          docs !! i = Some d'
          ∧ d' !! "_id" = (λ v, VStr (py_str v)) <$> d !! "_id"
          ∧ (∀ k, k ≠ "_id" → d' !! k = d !! k)
          ∧ (d !! "_id" = None ∨ (∃ s, d !! "_id" = Some (VStr s)) →
             d' = d).
Proof.
  intros Hget. unfold list_unlock_requests_with. rewrite Hget.
  exists (stringify_id <$> stored). split; [done |].
  split; [apply length_fmap |].
  intros i d Hi. exists (stringify_id d).
  split; [by rewrite list_lookup_fmap, Hi |]. unfold stringify_id.
  destruct (d !! "_id") as [v|] eqn:Hid.
  - split; [by rewrite lookup_insert_eq |].
    split; [intros k Hk; by rewrite lookup_insert_ne |].
    intros [[=]|[s [= ->]]]. by apply insert_id.
  - by rewrite Hid.
Qed.

Lemma listing_stringifies_ids_witness :
  ∃ docs,
    list_unlock_requests_with (λ _ _ st, (st, inr two_documents)) 50
      empty_store
    = (empty_store, inr docs)
    ∧ length docs = 2%nat
    ∧ ∀ i d,
        two_documents !! i = Some d →
        ∃ d',
          docs !! i = Some d'
          ∧ d' !! "_id" = (λ v, VStr (py_str v)) <$> d !! "_id"
          ∧ (∀ k, k ≠ "_id" → d' !! k = d !! k)
          ∧ (d !! "_id" = None ∨ (∃ s, d !! "_id" = Some (VStr s)) →
             d' = d).
Proof.
  apply (listing_stringifies_ids (λ _ _ st, (st, inr two_documents)) 50
           empty_store empty_store two_documents).
  reflexivity.
Defined.

(** ** The diagnostic endpoint *)

(** X13. The two configuration marks of [/test] come from the environment
    alone. Whatever importing the database module gives, [database_url] and
    [database_name] say whether [DATABASE_URL] and [DATABASE_NAME] are set
    to something not empty: what the endpoint first writes there from the
    database object never reaches the answer. The backend is always reported
    as running. *)
Theorem configuration_marks_from_environment (environ : gmap string str)
    (imported : Diagnostics.Import) :
  Diagnostics.database_url (Diagnostics.test_database environ imported)
  = Some (if truthy (environ !! "DATABASE_URL")
          then Diagnostics.yes ++ lit " Set"
          else Diagnostics.no ++ lit " Not Set")
  ∧ Diagnostics.database_name (Diagnostics.test_database environ imported)
    = Some (if truthy (environ !! "DATABASE_NAME")
            then Diagnostics.yes ++ lit " Set"
            else Diagnostics.no ++ lit " Not Set")
  ∧ Diagnostics.backend (Diagnostics.test_database environ imported)
    = Diagnostics.yes ++ lit " Running".
Proof.
  unfold Diagnostics.test_database.
  destruct imported as [|e|[db|]]; try done.
  by destruct (Diagnostics.list_collection_names db).
Qed.

Ltac database_length :=
  cbn [Diagnostics.database Diagnostics.set_database
       Diagnostics.set_database_url Diagnostics.set_database_name
       Diagnostics.set_connection_status Diagnostics.set_collections];
  rewrite !length_app, length_take;
  match goal with
  | |- context [(50 `min` ?n)%nat] =>
      pose proof (Nat.le_min_l 50 n); generalize dependent (50 `min` n)%nat
  end;
  intros; cbn; lia.

(** X14. What [/test] reports of the database hangs together. At most ten
    collections are listed, the first ones the database names; any are
    listed only when the database object is there and could be asked, and
    then it is reported as connected and working. The connection is
    reported as [Connected] exactly when the import gave a database object,
    also when asking it failed. The text of an exception is cut to its first
    fifty characters, so the report on the database never exceeds 75
    characters. *)
Theorem diagnosis_consistent (environ : gmap string str)
    (imported : Diagnostics.Import) :
  let r := Diagnostics.test_database environ imported in
  (length (Diagnostics.collections r) ≤ 10)%nat
  ∧ (Diagnostics.collections r ≠ [] →
     ∃ db names,
       imported = Diagnostics.Imported (Some db)
       ∧ Diagnostics.list_collection_names db = inr names
       ∧ Diagnostics.collections r = take 10 names
       ∧ Diagnostics.database r
         = Diagnostics.yes ++ lit " Connected & Working")
  ∧ (Diagnostics.connection_status r = lit "Connected"
     ↔ ∃ db, imported = Diagnostics.Imported (Some db))
  ∧ (length (Diagnostics.database r) ≤ 75)%nat.
Proof.
  unfold Diagnostics.test_database. cbv zeta.
  destruct imported as [|e|[db|]].
  - split; [cbn; lia |]. split; [done |].
    split; [split; [discriminate | by intros [db [=]]] | cbn; lia].
  - split; [cbn; lia |]. split; [done |].
    split; [split; [discriminate | by intros [db [=]]] |].
    database_length.
  - destruct (Diagnostics.list_collection_names db) as [e|names] eqn:Hl.
    + split; [cbn; lia |]. split; [done |].
      split; [split; [by exists db | done] |].
      database_length.
    + split; [cbn; rewrite length_take; lia |].
      split; [intros _; by exists db, names |].
      split; [split; [by exists db | done] | cbn; lia].
  - split; [cbn; lia |]. split; [done |].
    split; [split; [discriminate | by intros [db [=]]] | cbn; lia].
Qed.

(** ** The further properties at concrete inputs *)

Lemma normal_return_is_skip_or_delivery_witness :
  (smtp_configured accepting = false
   ∧ (_send_email_smtp (lit "Hello") (lit "jane@example.com")
        (lit "<p>Hi</p>") None accepting silent).1
     = {| stdout :=
            stdout silent
            ++ [lit "[email] SMTP not configured. Skipping send."];
          network := network silent |})
  ∨ (smtp_configured accepting = true
     ∧ ∃ port,
         smtp_port accepting = Some port
         ∧ smtp_ok accepting
             (SendMessage (lit "Hello") (sender accepting)
                (lit "jane@example.com") None (lit "<p>Hi</p>"))
           = true
         ∧ (_send_email_smtp (lit "Hello") (lit "jane@example.com")
              (lit "<p>Hi</p>") None accepting silent).1
           = {| stdout :=
                  stdout silent
                  ++ [lit "[email] Sent to " ++ lit "jane@example.com"];
                network :=
                  network silent
                  ++ session accepting port
                       (SendMessage (lit "Hello") (sender accepting)
                          (lit "jane@example.com") None (lit "<p>Hi</p>")) |}).
Proof.
  apply (normal_return_is_skip_or_delivery (lit "Hello")
           (lit "jane@example.com") (lit "<p>Hi</p>") None accepting silent).
  reflexivity.
Defined.

Lemma multiline_header_refused_witness :
  ∃ e,
    _send_email_smtp (lit "Hello" ++ [10] ++ lit "Bcc: x@example.com")
      (lit "jane@example.com") (lit "<p>Hi</p>") None accepting silent
    = (silent, inl e)
    ∧ (header_ok (lit "Hello" ++ [10] ++ lit "Bcc: x@example.com") = false →
       e = ValueError (lit "Header values may not contain linefeed or carriage return characters")).
Proof.
  apply (multiline_header_refused
           (lit "Hello" ++ [10] ++ lit "Bcc: x@example.com")
           (lit "jane@example.com") (lit "<p>Hi</p>") None accepting silent
           587);
    reflexivity.
Defined.

(** A brand of two lines stops the administrator's notification before the
    server is contacted. *)
Example line_break_in_brand_stops_admin :
  send_admin_notification two_line_brand (lit "0") accepting silent
  = (silent, inl (ValueError (lit "Header values may not contain linefeed or carriage return characters"))).
Proof. vm_compute. reflexivity. Qed.

Lemma unconfigured_mail_skips_both_witness :
  run_background
    [send_admin_notification jane_request (lit "0");
     send_customer_autoresponse jane_request (lit "0")]
    unconfigured silent
  = ({| stdout :=
          stdout silent
          ++ [lit "[email] SMTP not configured. Skipping send.";
              lit "[email] SMTP not configured. Skipping send."];
        network := network silent |}, inr tt).
Proof.
  apply (unconfigured_mail_skips_both create_document jane_request
           empty_store
           (create_document "unlockrequest" jane_request empty_store).1
           {| id := lit "0";
              message := lit "Request received. We'll email you with next steps." |}
           [send_admin_notification jane_request (lit "0");
            send_customer_autoresponse jane_request (lit "0")]
           unconfigured silent 587);
    reflexivity.
Defined.

Lemma both_notifications_delivered_witness :
  run_background
    [send_admin_notification jane_request (lit "0");
     send_customer_autoresponse jane_request (lit "0")]
    accepting silent
  = ({| stdout :=
          stdout silent
          ++ [lit "[email] Sent to " ++ admin_address accepting;
              lit "[email] Sent to " ++ email jane_request];
        network :=
          network silent
          ++ session accepting 587
               (SendMessage (admin_subject jane_request (lit "0"))
                  (sender accepting) (admin_address accepting)
                  (Some (admin_text jane_request (lit "0")))
                  (admin_html jane_request (lit "0")))
          ++ session accepting 587
               (SendMessage (lit "We received your unlock request")
                  (sender accepting) (email jane_request)
                  (Some (customer_text jane_request (lit "0")))
                  (customer_html jane_request (lit "0"))) |},
     inr tt).
Proof.
  apply (both_notifications_delivered create_document jane_request
           empty_store
           (create_document "unlockrequest" jane_request empty_store).1
           {| id := lit "0";
              message := lit "Request received. We'll email you with next steps." |}
           [send_admin_notification jane_request (lit "0");
            send_customer_autoresponse jane_request (lit "0")]
           accepting silent 587);
    reflexivity.
Defined.

(** The twelve collections of the example are cut to ten. *)
Example ten_of_twelve_collections :
  length (Diagnostics.collections
            (Diagnostics.test_database ∅
               (Diagnostics.Imported (Some twelve_collections)))) = 10%nat
  ∧ Diagnostics.database_url
      (Diagnostics.test_database ∅
         (Diagnostics.Imported (Some twelve_collections)))
    = Some (Diagnostics.no ++ lit " Not Set").
Proof. split; reflexivity. Qed.
